(** * server_mt.py: a shallow embedding of the multithreaded static file server

    The development follows [src/server_mt.py] function by function.

    Modelling conventions.
    - A Python [str] and a Python [bytes] are both a Rocq [string], that is a
      sequence of bytes; [encode]/[decode] are the identity.  The model is
      exact on ASCII request lines and file names (it does not replace
      invalid UTF-8, and it lower-cases and splits on ASCII only).
    - [time.time()] is a rational number [Q].  The only arithmetic the
      source does on it is [now - t < TIME_WINDOW], and the difference of
      two clock readings that are within a factor of two of each other is
      exact in binary floating point.
    - A [dict] is a [gmap]; a [dict] of response headers, whose insertion
      order is the order on the wire, is an association list.
    - The file system is a record of the [os]/[os.path] calls the handler
      makes.  The calls the source guards with [try]/[except OSError]
      ([os.listdir], [open]/[read]) may fail; the other ones return.
    - The socket is the pair of what [recv] returned and what the handler
      passed to [respond]; [recv] and [sendall] are taken to succeed.
    - The globals [client_requests] and [COUNTS] are threaded as state.
      The interleaving of the threads inside [_bump_count] is a step
      relation of its own (module [Threads]). *)

From Stdlib Require Import ZArith QArith Qround Lia Lqa Ascii String List DecimalString.
From Stdlib Require Import Sorted.
From stdpp Require Import gmap strings list fin_maps.

Local Close Scope Q_scope.
Local Open Scope nat_scope.

(** ** Python string methods *)

Module Py.

Definition chr (n : nat) : string := String (ascii_of_nat n) EmptyString.

(** the characters the source writes with an escape *)
Definition DQUOTE : string := chr 34.
Definition CR : string := chr 13.
Definition LF : string := chr 10.
Definition CRLF : string := CR +:+ LF.

(** [s.startswith(pre)] *)
Fixpoint startswith (s pre : string) {struct pre} : bool :=
  match pre with
  | EmptyString => true
  | String a pre' =>
      match s with
      | EmptyString => false
      | String b s' => Ascii.eqb a b && startswith s' pre'
      end
  end.

Fixpoint rev_onto (s acc : string) : string :=
  match s with
  | EmptyString => acc
  | String c r => rev_onto r (String c acc)
  end.

Definition rev (s : string) : string := rev_onto s EmptyString.

(** [s.endswith(suf)] *)
Definition endswith (s suf : string) : bool := startswith (rev s) (rev suf).

(** [s.lstrip(c)] for a one-character argument *)
Fixpoint lstrip (c : ascii) (s : string) : string :=
  match s with
  | EmptyString => EmptyString
  | String a r => if Ascii.eqb a c then lstrip c r else s
  end.

(** [s.rstrip(c)] for a one-character argument *)
Definition rstrip (c : ascii) (s : string) : string := rev (lstrip c (rev s)).

(** [s.split(sep)] for a one-character separator: never an empty list *)
Fixpoint split (sep : ascii) (s : string) : list string :=
  match s with
  | EmptyString => [EmptyString]
  | String a r =>
      if Ascii.eqb a sep then EmptyString :: split sep r
      else match split sep r with
           | [] => [String a EmptyString]
           | h :: t => String a h :: t
           end
  end.

(** [sep.join(l)] *)
Definition join (sep : string) (l : list string) : string := String.concat sep l.

(** [s.rsplit(sep, 1)[0]] for a one-character separator: what is before
    the last separator, the whole string when there is none *)
Definition rsplit1_head (sep : ascii) (s : string) : string :=
  match List.rev (split sep s) with
  | [] => s
  | [_] => s
  | _ :: before => join (String sep EmptyString) (List.rev before)
  end.

(** [s.split(sub, 1)[0]]: what is before the first occurrence of [sub] *)
Fixpoint split1_head (sub s : string) : string :=
  match s with
  | EmptyString => EmptyString
  | String a r => if startswith s sub then EmptyString else String a (split1_head sub r)
  end.

(** [str.isspace] on the ASCII range *)
Definition isspace (a : ascii) : bool :=
  let n := nat_of_ascii a in
  ((9 <=? n) && (n <=? 13)) || ((28 <=? n) && (n <=? 32)).

(** [s.split()]: the maximal runs of non-space characters.  [cur] is the
    run being read, reversed. *)
Fixpoint split_ws_go (s cur : string) : list string :=
  match s with
  | EmptyString => match cur with EmptyString => [] | _ => [rev cur] end
  | String a r =>
      if isspace a
      then match cur with
           | EmptyString => split_ws_go r EmptyString
           | _ => rev cur :: split_ws_go r EmptyString
           end
      else split_ws_go r (String a cur)
  end.

Definition split_ws (s : string) : list string := split_ws_go s EmptyString.

Definition lower_ascii (a : ascii) : ascii :=
  let n := nat_of_ascii a in
  if (65 <=? n) && (n <=? 90) then ascii_of_nat (n + 32) else a.

(** [s.lower()] on the ASCII range *)
Fixpoint lower (s : string) : string :=
  match s with
  | EmptyString => EmptyString
  | String a r => String (lower_ascii a) (lower r)
  end.

(** [str(n)] for a non-negative integer *)
Definition str_of_nat (n : nat) : string := NilEmpty.string_of_uint (Nat.to_uint n).

Definition str_of_N (n : N) : string := NilEmpty.string_of_uint (N.to_uint n).

(** [x in l] for a set or list of strings *)
Definition mem (x : string) (l : list string) : bool := existsb (String.eqb x) l.

(** comparison of two lists of strings, as [<] on Python lists *)
Fixpoint list_lt (a b : list string) : bool :=
  match a, b with
  | [], [] => false
  | [], _ :: _ => true
  | _ :: _, [] => false
  | x :: a', y :: b' =>
      match String.compare x y with
      | Lt => true
      | Gt => false
      | Eq => list_lt a' b'
      end
  end.

(** [min([a, b])] and [max([a, b])]: the first of the two unless the second
    is strictly smaller (respectively larger) *)
Definition min2 (a b : list string) : list string := if list_lt b a then b else a.
Definition max2 (a b : list string) : list string := if list_lt a b then b else a.

(** [sorted(l)] on strings: insertion into a sorted list *)
Fixpoint insert_sorted (x : string) (l : list string) : list string :=
  match l with
  | [] => [x]
  | y :: r => if String.leb x y then x :: l else y :: insert_sorted x r
  end.

Definition sorted (l : list string) : list string := foldr insert_sorted [] l.

End Py.

(** ** [posixpath]: the functions of [os.path] that only look at the text *)

Module posixpath.

(** [os.path.join(a, b)] *)
Definition join (a b : string) : string :=
  if Py.startswith b "/" then b
  else if String.eqb a EmptyString || Py.endswith a "/" then a +:+ b
  else a +:+ "/" +:+ b.

(** [p.rfind(c)]: the last index of [c], [-1] when there is none *)
Fixpoint rfind_from (c : ascii) (s : string) (i last : Z) : Z :=
  match s with
  | EmptyString => last
  | String a r => rfind_from c r (i + 1) (if Ascii.eqb a c then i else last)
  end.

Definition rfind (c : ascii) (s : string) : Z := rfind_from c s 0 (-1).

(** the [while] loop of [genericpath._splitext]: is one of the [n]
    characters from [filenameIndex] on something else than a dot? *)
Fixpoint splitext_scan (p : string) (filenameIndex n : nat) : bool :=
  match n with
  | O => false
  | S n' =>
      match String.get filenameIndex p with
      | Some a => if Ascii.eqb a "." then splitext_scan p (S filenameIndex) n' else true
      | None => true
      end
  end.

(** [os.path.splitext(p)] *)
Definition splitext (p : string) : string * string :=
  let sepIndex := rfind "/" p in
  let dotIndex := rfind "." p in
  if (sepIndex <? dotIndex)%Z
     && splitext_scan p (Z.to_nat (sepIndex + 1)) (Z.to_nat (dotIndex - (sepIndex + 1)))
  then (String.substring 0 (Z.to_nat dotIndex) p,
        String.substring (Z.to_nat dotIndex) (String.length p - Z.to_nat dotIndex) p)
  else (p, EmptyString).

(** [[c for c in s if c and c != curdir]] *)
Definition keep_component (c : string) : bool :=
  negb (String.eqb c EmptyString) && negb (String.eqb c ".").

Definition components (p : string) : list string :=
  List.filter keep_component (Py.split "/" p).

(** the loop of [commonpath]: [s1[:i]] for the first [i] with
    [s1[i] != s2[i]], all of [s1] when there is none; [None] is the
    [IndexError] of [s2[i]] *)
Fixpoint commonpath_loop (s1 s2 : list string) : option (list string) :=
  match s1 with
  | [] => Some []
  | c :: r1 =>
      match s2 with
      | [] => None
      | d :: r2 =>
          if String.eqb c d
          then match commonpath_loop r1 r2 with
               | Some l => Some (c :: l)
               | None => None
               end
          else Some []
      end
  end.

Inductive commonpath_result :=
| Common (p : string)
| ValueError
| IndexError.

(** [os.path.commonpath([p1, p2])] *)
Definition commonpath (p1 p2 : string) : commonpath_result :=
  let isabs1 := Py.startswith p1 "/" in
  let isabs2 := Py.startswith p2 "/" in
  if negb (Bool.eqb isabs1 isabs2) then ValueError
  else
    let c1 := components p1 in
    let c2 := components p2 in
    let s1 := Py.min2 c1 c2 in
    let s2 := Py.max2 c1 c2 in
    match commonpath_loop s1 s2 with
    | Some common => Common ((if isabs1 then "/" else EmptyString) +:+ Py.join "/" common)
    | None => IndexError
    end.

End posixpath.

(** ** [urllib.parse] *)

Module urllib.

Definition hexval (a : ascii) : option nat :=
  let n := nat_of_ascii a in
  if (48 <=? n) && (n <=? 57) then Some (n - 48)
  else if (65 <=? n) && (n <=? 70) then Some (n - 55)
  else if (97 <=? n) && (n <=? 102) then Some (n - 87)
  else None.

(** [unquote(s)]: each [%] followed by two hexadecimal digits becomes the
    byte they write; every other character stays *)
Fixpoint unquote (s : string) : string :=
  match s with
  | EmptyString => EmptyString
  | String a t =>
      if Ascii.eqb a "%"
      then match t with
           | String h (String l r) =>
               match hexval h, hexval l with
               | Some x, Some y => String (ascii_of_nat (16 * x + y)) (unquote r)
               | _, _ => String a (unquote t)
               end
           | _ => String a (unquote t)
           end
      else String a (unquote t)
  end.

Definition hexdigit (n : nat) : ascii :=
  if n <? 10 then ascii_of_nat (48 + n) else ascii_of_nat (55 + n).

(** the characters [quote] leaves alone: letters, digits, [_.-~] and the
    default [safe='/'] *)
Definition is_safe (a : ascii) : bool :=
  let n := nat_of_ascii a in
  ((48 <=? n) && (n <=? 57)) || ((65 <=? n) && (n <=? 90)) || ((97 <=? n) && (n <=? 122))
  || Py.mem (String a EmptyString) ["_"; "."; "-"; "~"; "/"].

(** [quote(s)] *)
Fixpoint quote (s : string) : string :=
  match s with
  | EmptyString => EmptyString
  | String a r =>
      if is_safe a then String a (quote r)
      else let n := nat_of_ascii a in
           String "%" (String (hexdigit (n / 16)) (String (hexdigit (n mod 16)) (quote r)))
  end.

End urllib.

(** ** The file system, as the handler sees it *)

Record FileSystem := {
  realpath : string -> string;            (* os.path.realpath *)
  isdir : string -> bool;                 (* os.path.isdir *)
  isfile : string -> bool;                (* os.path.isfile *)
  listdir : string -> option (list string); (* os.listdir; None is OSError *)
  getsize : string -> N;                  (* os.path.getsize *)
  open_read : string -> option string     (* open(p, "rb").read(); None is OSError *)
}.

(** ** [server_mt.py] *)

(** *** config *)

Definition ALLOWED_EXTENSIONS : list string := [".html"; ".png"; ".jpg"; ".pdf"].
Definition VISIBLE_FILES : list string := ["index.html"; "Syllabus PR FAF-23x -2.pdf"].
Definition VISIBLE_DIRS : list string := ["books"; "docs"; "mercedes"; "report_pics"].
Definition REQUESTS_PER_SECOND : nat := 5.
Definition TIME_WINDOW : Q := 1%Q.

(** the four [mimetypes.add_type] calls.  The handler asks for a type only
    after the extension passed [ALLOWED_EXTENSIONS], so no other entry of
    the system table is ever read. *)
Definition types_map : list (string * string) :=
  [(".pdf", "application/pdf"); (".png", "image/png"); (".jpg", "image/jpeg");
   (".html", "text/html; charset=utf-8")].

Fixpoint assoc (k : string) (l : list (string * string)) : option string :=
  match l with
  | [] => None
  | (k', v) :: r => if String.eqb k k' then Some v else assoc k r
  end.

(** [mimetypes.guess_type(path)[0]]: the extension as written, then
    lower-cased *)
Definition guess_type (path : string) : option string :=
  let ext := snd (posixpath.splitext path) in
  match assoc ext types_map with
  | Some t => Some t
  | None => assoc (Py.lower ext) types_map
  end.

(** *** globals *)

Record Globals := {
  client_requests : gmap string (list Q);
  COUNTS : gmap string nat
}.

Definition initial_globals : Globals := {| client_requests := ∅; COUNTS := ∅ |}.

(** [COUNTS.get(key, 0)] *)
Definition counts_get (counts : gmap string nat) (key : string) : nat :=
  default 0 (counts !! key).

(** *** [file_size] *)

(** round to the nearest integer, ties to the even one *)
Definition round_half_even (q : Q) : Z :=
  let fl := Qfloor q in
  match Qcompare (2 * (q - inject_Z fl)) 1 with
  | Lt => fl
  | Gt => (fl + 1)%Z
  | Eq => if Z.even fl then fl else (fl + 1)%Z
  end.

(** [f"{x:.1f}"] for [x >= 0] *)
Definition format_1f (x : Q) : string :=
  let tenths := round_half_even (x * 10) in
  Py.str_of_N (Z.to_N (tenths / 10)) +:+ "." +:+ Py.str_of_N (Z.to_N (tenths mod 10)).

Fixpoint file_size_units (units : list string) (num_bytes : Q) : string :=
  match units with
  | [] => format_1f num_bytes +:+ " TB"
  | unit :: rest =>
      match Qcompare num_bytes 1024 with
      | Lt => format_1f num_bytes +:+ " " +:+ unit
      | _ => file_size_units rest (num_bytes / 1024)
      end
  end.

Definition file_size (num_bytes : N) : string :=
  file_size_units ["B"; "KB"; "MB"; "GB"] (inject_Z (Z.of_N num_bytes)).

(** *** [_bump_count], run by one thread alone *)

Definition _bump_count (counts : gmap string nat) (path_key : string) : gmap string nat :=
  let current := counts_get counts path_key in
  <[path_key := current + 1]> counts.

(** *** [respond] *)

(** one call [respond(conn, status, headers, body)] *)
Record Response := {
  status : string;
  headers : list (string * string);
  body : string
}.

(** the bytes [respond] gives to [conn.sendall] *)
Definition respond (r : Response) : string :=
  let head := ("HTTP/1.1 " +:+ status r)
              :: map (fun kv => fst kv +:+ ": " +:+ snd kv) (headers r)
              ++ [EmptyString; EmptyString] in
  Py.join Py.CRLF head +:+ body r.

(** the three digits of the status line *)
Definition status_code (r : Response) : string := String.substring 0 3 (status r).

(** [headers[k]] *)
Definition header (k : string) (r : Response) : option string := assoc k (headers r).

(** *** [_is_subpath] *)

Definition _is_subpath (fs : FileSystem) (child parent : string) : option bool :=
  let child_real := realpath fs child in
  let parent_real := realpath fs parent in
  match posixpath.commonpath child_real parent_real with
  | posixpath.Common p => Some (String.eqb p parent_real)
  | posixpath.ValueError => Some false
  | posixpath.IndexError => None
  end.

(** *** [allow_request] *)

(** [x < y] on rationals *)
Definition Qltb (x y : Q) : bool :=
  match Qcompare x y with Lt => true | _ => false end.

(** [[t for t in timestamps if now - t < TIME_WINDOW]] *)
Definition prune (now : Q) (timestamps : list Q) : list Q :=
  List.filter (fun t => Qltb (now - t) TIME_WINDOW) timestamps.

Definition allow_request (requests : gmap string (list Q)) (now : Q) (ip : string)
  : gmap string (list Q) * bool :=
  let requests1 :=
    match requests !! ip with
    | None => <[ip := []]> requests
    | Some _ => requests
    end in
  let timestamps := default [] (requests1 !! ip) in
  let requests2 := <[ip := prune now timestamps]> requests1 in
  let kept := default [] (requests2 !! ip) in
  if length kept <? REQUESTS_PER_SECOND
  then (<[ip := kept ++ [now]]> requests2, true)
  else (requests2, false).

(** *** the fixed responses *)

Definition html_type : string * string := ("Content-Type", "text/html; charset=utf-8").
Definition plain_type : string * string := ("Content-Type", "text/plain").
Definition content_length (body : string) : string * string :=
  ("Content-Length", Py.str_of_nat (String.length body)).
Definition connection_close : string * string := ("Connection", "close").

Definition body_429 : string :=
  Py.join Py.LF
    ["<!DOCTYPE html>"; "    <html>"; "    <head>";
     "        <title>429 Too Many Requests</title>"; "    </head>"; "    <body>";
     "        <h1>429 Too Many Requests</h1>";
     "        <p>Please slow down and try again later.</p>";
     "    </body>"; "    </html>"].

Definition _respond_429 : Response :=
  {| status := "429 Too Many Requests";
     headers := [html_type; ("Retry-After", "1"); content_length body_429; connection_close];
     body := body_429 |}.

Definition _respond_301 (location : string) : Response :=
  let body := "<html><body>Moved: <a href=" +:+ Py.DQUOTE +:+ location +:+ Py.DQUOTE +:+ ">"
              +:+ location +:+ "</a></body></html>" in
  {| status := "301 Moved Permanently";
     headers := [("Location", location); html_type; content_length body; connection_close];
     body := body |}.

Definition body_404 : string :=
  Py.join Py.LF
    ["<!DOCTYPE html>"; "    <html>"; "    <head>";
     "        <title>404 Not Found</title>"; "    </head>"; "    <body>";
     "        <h1>404 Not Found</h1>";
     "        <p>The requested page does not exist.</p>";
     "        <a href=" +:+ Py.DQUOTE +:+ "/" +:+ Py.DQUOTE +:+ ">Return to homepage</a>";
     "    </body>"; "    </html>"].

Definition _respond_404 : Response :=
  {| status := "404 Not Found";
     headers := [html_type; content_length body_404; connection_close];
     body := body_404 |}.

Definition respond_400 : Response :=
  {| status := "400 Bad Request";
     headers := [plain_type; connection_close];
     body := "Bad Request" |}.

Definition respond_405 : Response :=
  {| status := "405 Method Not Allowed";
     headers := [("Allow", "GET"); plain_type; connection_close];
     body := "Only GET is allowed" |}.

Definition respond_500 : Response :=
  {| status := "500 Internal Server Error";
     headers := [plain_type; connection_close];
     body := "Internal Server Error" |}.

Definition respond_200 (content_type body : string) : Response :=
  {| status := "200 OK";
     headers := [("Content-Type", content_type); content_length body; connection_close];
     body := body |}.

(** *** [_minimal_listing_html] *)

(** the two characters of the listing outside ASCII, in UTF-8 *)
Definition UP_ARROW : string := Py.chr 226 +:+ Py.chr 172 +:+ Py.chr 134.
Definition EM_DASH : string := Py.chr 226 +:+ Py.chr 128 +:+ Py.chr 148.

(** [req_path == "/" or req_path == "/public/"] *)
Definition is_main_page (req_path : string) : bool :=
  String.eqb req_path "/" || String.eqb req_path "/public/".

(** does the loop reach the [lines.append] of this entry, or [continue]? *)
Definition listing_shows (fs : FileSystem) (req_path abs_dir name : string) : bool :=
  let full := posixpath.join abs_dir name in
  let is_directory := isdir fs full in
  if is_main_page req_path
  then if is_directory then Py.mem name VISIBLE_DIRS else Py.mem name VISIBLE_FILES
  else true.

(** the table row of one entry *)
Definition listing_row (fs : FileSystem) (counts : gmap string nat)
  (req_path abs_dir name : string) : string :=
  let full := posixpath.join abs_dir name in
  let is_directory := isdir fs full in
  let href := if is_directory then urllib.quote name +:+ "/" else urllib.quote name in
  let size := if is_directory then EM_DASH else file_size (getsize fs full) in
  let child_req_path := req_path +:+ (if is_directory then name +:+ "/" else name) in
  let hits := counts_get counts child_req_path in
  "<tr><td><a href=" +:+ Py.DQUOTE +:+ href +:+ Py.DQUOTE +:+ ">"
  +:+ (if negb (isdir fs full) then name else name +:+ "/") +:+ "</a></td>"
  +:+ "<td>" +:+ size +:+ "</td><td>" +:+ Py.str_of_nat hits +:+ "</td></tr>".

(** the entries that get a row, in the order of the rows *)
Definition listing_entries (fs : FileSystem) (req_path abs_dir : string)
  (names : list string) : list string :=
  List.filter (listing_shows fs req_path abs_dir) (Py.sorted names).

Definition parent_link (req_path : string) : list string :=
  if String.eqb req_path "/" then []
  else
    let parent := Py.rsplit1_head "/" (Py.rstrip "/" req_path) in
    let parent := if String.eqb parent EmptyString then "/" else parent +:+ "/" in
    ["<a href=" +:+ Py.DQUOTE +:+ urllib.quote parent +:+ Py.DQUOTE +:+ ">"
     +:+ UP_ARROW +:+ " Parent directory</a>"].

(** the lines before the rows *)
Definition listing_head (req_path : string) : list string :=
  ["<!DOCTYPE html>"; "<html lang='en'>"; "<head>";
   "<meta charset='utf-8'>";
   "<meta name='viewport' content='width=device-width, initial-scale=1'>";
   "<title>Content of " +:+ req_path +:+ "</title>";
   "</head>"; "<body>";
   "<h1>Filip</h1>";
   "<h2>Content of " +:+ req_path +:+ "</h2>";
   "<main>"]
  ++ parent_link req_path
  ++ ["<table border='1'>"; "<tr><th>Name</th><th>Size</th><th>Hits</th></tr>"].

Definition listing_lines (fs : FileSystem) (counts : gmap string nat)
  (req_path abs_dir : string) (names : list string) : list string :=
  listing_head req_path
  ++ map (listing_row fs counts req_path abs_dir) (listing_entries fs req_path abs_dir names)
  ++ ["</table></main></body></html>"].

Definition _minimal_listing_html (fs : FileSystem) (counts : gmap string nat)
  (req_path abs_dir : string) : string :=
  match listdir fs abs_dir with
  | None => "<html><body><h1>Forbidden</h1></body></html>"
  | Some names => Py.join Py.LF (listing_lines fs counts req_path abs_dir names)
  end.

(** *** [_serve_connection] *)

(** [if not target.startswith("/"): target = "/"], then [unquote(target)] *)
Definition normalize_target (target : string) : string :=
  let target := if negb (Py.startswith target "/") then "/" else target in
  urllib.unquote target.

(** [os.path.realpath(os.path.join(os.path.join(content_dir, "public"),
    target.lstrip("/")))] *)
Definition resolve (fs : FileSystem) (content_dir target : string) : string :=
  let public_root := posixpath.join content_dir "public" in
  let requested_rel := Py.lstrip "/" target in
  realpath fs (posixpath.join public_root requested_rel).

(** what the handler does once the hit is counted.  [None]: an exception
    leaves the handler and nothing is sent. *)
Definition serve_target (fs : FileSystem) (counts : gmap string nat)
  (content_dir target : string) : option Response :=
  let requested_abs := resolve fs content_dir target in
  (* 1) traversal guard *)
  match _is_subpath fs requested_abs content_dir with
  | None => None
  | Some false => Some _respond_404
  | Some true =>
      (* 2) directory *)
      if isdir fs requested_abs then
        if negb (Py.endswith target "/") then Some (_respond_301 (target +:+ "/"))
        else
          let body := _minimal_listing_html fs counts target requested_abs in
          Some (respond_200 "text/html; charset=utf-8" body)
      (* 3) file *)
      else if negb (isfile fs requested_abs) then Some _respond_404
      else
        let ext := Py.lower (snd (posixpath.splitext requested_abs)) in
        if negb (Py.mem ext ALLOWED_EXTENSIONS) then Some _respond_404
        else
          match guess_type requested_abs with
          | None => Some _respond_404
          | Some mime_type =>
              match open_read fs requested_abs with
              | Some body => Some (respond_200 mime_type body)
              | None => Some respond_500
              end
          end
  end.

(** One connection.  [now] is what [time.time()] returns inside
    [allow_request], [data] what [conn.recv(4096)] returns; the result is
    the globals afterwards and the response sent, if any. *)
Definition _serve_connection (fs : FileSystem) (g : Globals) (now : Q) (data : string)
  (addr : string * N) (content_dir : string) : Globals * option Response :=
  let client_ip := fst addr in
  let (requests, allowed) := allow_request (client_requests g) now client_ip in
  let g := {| client_requests := requests; COUNTS := COUNTS g |} in
  if negb allowed then (g, Some _respond_429)
  else if String.eqb data EmptyString then (g, None)
  else
    let line := Py.split1_head Py.CRLF data in
    let parts := Py.split_ws line in
    match parts with
    | [method; target; version] =>
        if negb (String.eqb method "GET") then (g, Some respond_405)
        else
          let target := normalize_target target in
          let counts := _bump_count (COUNTS g) target in
          let g := {| client_requests := requests; COUNTS := counts |} in
          (g, serve_target fs counts content_dir target)
    | _ => (g, Some respond_400)
    end.

(** ** The threads inside [_bump_count]

    [main] starts one thread per connection, and every thread that reaches
    [_bump_count] runs the five steps below on the shared [COUNTS] and
    [COUNTS_LOCK]; the scheduler picks which thread moves next. *)

Module Threads.

Inductive pc :=
| AtWith                    (* about to enter [with COUNTS_LOCK] *)
| AtGet                     (* holds the lock, about to read [COUNTS.get(path_key, 0)] *)
| AtSleep (current : nat)   (* in [time.sleep(100 / 1000.0)] *)
| AtStore (current : nat)   (* about to run [COUNTS[path_key] = current + 1] *)
| AtRelease                 (* about to leave the [with] block *)
| Returned.

Record thread := { path_key : string; at_pc : pc }.

Record config := {
  counts : gmap string nat;   (* COUNTS *)
  locked : bool;              (* COUNTS_LOCK is held *)
  pool : list thread
}.

(** one step of one thread; [None] when it is blocked on the lock or has
    returned *)
Definition thread_step (counts : gmap string nat) (locked : bool) (t : thread)
  : option (gmap string nat * bool * thread) :=
  let k := path_key t in
  match at_pc t with
  | AtWith =>
      if locked then None
      else Some (counts, true, {| path_key := k; at_pc := AtGet |})
  | AtGet =>
      Some (counts, locked, {| path_key := k; at_pc := AtSleep (counts_get counts k) |})
  | AtSleep current =>
      Some (counts, locked, {| path_key := k; at_pc := AtStore current |})
  | AtStore current =>
      Some (<[k := current + 1]> counts, locked, {| path_key := k; at_pc := AtRelease |})
  | AtRelease =>
      Some (counts, false, {| path_key := k; at_pc := Returned |})
  | Returned => None
  end.

(** the scheduler lets thread [i] move *)
Definition step (i : nat) (c : config) : option config :=
  match pool c !! i with
  | None => None
  | Some t =>
      match thread_step (counts c) (locked c) t with
      | None => None
      | Some (counts', locked', t') =>
          Some {| counts := counts'; locked := locked'; pool := <[i := t']> (pool c) |}
      end
  end.

(** a schedule is the list of the threads that move, in order *)
Fixpoint run (schedule : list nat) (c : config) : option config :=
  match schedule with
  | [] => Some c
  | i :: rest =>
      match step i c with
      | None => None
      | Some c' => run rest c'
      end
  end.

(** the threads of [keys], none of them started *)
Definition start (counts0 : gmap string nat) (keys : list string) : config :=
  {| counts := counts0; locked := false;
     pool := map (fun k => {| path_key := k; at_pc := AtWith |}) keys |}.

Definition has_returned (t : thread) : bool :=
  match at_pc t with Returned => true | _ => false end.

Definition all_returned (c : config) : bool := forallb has_returned (pool c).

(** the number of requests for [k] among [keys] *)
Definition requests_for (k : string) (keys : list string) : nat :=
  length (List.filter (String.eqb k) keys).

(** three requests, two of them for the same path, and a schedule in which
    the second thread takes the lock first, then the third, then the first *)
Definition three_requests : list string := ["/books/"; "/"; "/books/"].

Definition interleaved : list nat :=
  [1; 1; 1; 1; 1; 2; 2; 2; 2; 2; 0; 0; 0; 0; 0].

End Threads.

(** ** A file system without symbolic links

    A tree given by the list of its canonical absolute paths, for running
    the handler on concrete requests.  Without links [os.path.realpath] is
    [os.path.abspath]. *)

Module Tree.

Inductive node :=
| Dir
| File (content : string) (readable : bool).

Definition tree := list (string * node).

(** [".."] removes the component before it, and nothing at the root *)
Fixpoint collapse (comps stack : list string) : list string :=
  match comps with
  | [] => List.rev stack
  | c :: r =>
      if String.eqb c ".." then collapse r (List.tl stack)
      else collapse r (c :: stack)
  end.

Definition abspath (cwd p : string) : string :=
  let p := if Py.startswith p "/" then p else cwd +:+ "/" +:+ p in
  "/" +:+ Py.join "/" (collapse (posixpath.components p) []).

Fixpoint lookup (p : string) (t : tree) : option node :=
  match t with
  | [] => None
  | (q, n) :: r => if String.eqb p q then Some n else lookup p r
  end.

(** the name of [q] inside the directory [p], when [q] is an entry of it *)
Definition entry_of (p q : string) : option string :=
  let cp := posixpath.components p in
  let cq := posixpath.components q in
  if (length cq =? S (length cp)) && bool_decide (take (length cp) cq = cp)
  then last cq else None.

Definition fs (cwd : string) (t : tree) : FileSystem :=
  {| realpath := abspath cwd;
     isdir p := match lookup (abspath cwd p) t with Some Dir => true | _ => false end;
     isfile p := match lookup (abspath cwd p) t with Some (File _ _) => true | _ => false end;
     listdir p :=
       match lookup (abspath cwd p) t with
       | Some Dir => Some (omap (fun e => entry_of (abspath cwd p) (fst e)) t)
       | _ => None
       end;
     getsize p :=
       match lookup (abspath cwd p) t with
       | Some (File content _) => N.of_nat (String.length content)
       | _ => 0%N
       end;
     open_read p :=
       match lookup (abspath cwd p) t with
       | Some (File content true) => Some content
       | _ => None
       end |}.

(** the tree of the examples *)
Definition site : tree :=
  [("/etc", Dir);
   ("/etc/passwd", File "root:x:0:0" true);
   ("/srv", Dir);
   ("/srv/site", Dir);
   ("/srv/site/notes.html", File "<p>private</p>" true);
   ("/srv/site/public", Dir);
   ("/srv/site/public/index.html", File "<h1>Home</h1>" true);
   ("/srv/site/public/locked.pdf", File "%PDF" false);
   ("/srv/site/public/notes.txt", File "plain notes" true);
   ("/srv/site/public/hidden", Dir);
   ("/srv/site/public/books", Dir);
   ("/srv/site/public/books/rocq.pdf", File "%PDF-1.7" true);
   ("/srv/site/public/books/cover.png", File "PNG" true);
   ("/srv/site/public/books/drafts", Dir)].

Definition site_fs : FileSystem := fs "/srv/site" site.
Definition content_dir : string := "/srv/site".
Definition client : string * N := ("203.0.113.7", 40000%N).

End Tree.

(** ** Vocabulary of the statements *)

(** does the character occur in the string? *)
Fixpoint has_char (c : ascii) (s : string) : bool :=
  match s with
  | EmptyString => false
  | String a r => Ascii.eqb a c || has_char c r
  end.

(** a name that can stand between two slashes of a canonical path *)
Definition good_component (c : string) : bool :=
  posixpath.keep_component c && negb (has_char "/" c).

(** an absolute path with single slashes, no trailing slash and no [.]
    component: what [os.path.realpath] returns *)
Definition canonical (p : string) : Prop :=
  exists comps, Forall (fun c => good_component c = true) comps
                /\ p = "/" +:+ Py.join "/" comps.

(** [os.path.realpath] of this file system returns canonical paths *)
Definition canonical_realpath (fs : FileSystem) : Prop :=
  forall p, canonical (realpath fs p).

(** [child] is [parent] or lies below it: after canonicalization, the
    components of [parent] are the first components of [child] *)
Definition is_within (fs : FileSystem) (child parent : string) : Prop :=
  posixpath.components (realpath fs parent) `prefix_of`
  posixpath.components (realpath fs child).

(** the longest common prefix of two lists of components *)
Fixpoint common_prefix (a b : list string) : list string :=
  match a, b with
  | x :: a', y :: b' => if String.eqb x y then x :: common_prefix a' b' else []
  | _, _ => []
  end.

(** *** The rate limiter over time *)

(** The calls of [allow_request], in the order in which they hold
    [requests_lock]: who calls, and what [time.time()] gave.  The result is
    the final [client_requests] and the answer of each call. *)
Fixpoint run_calls (requests : gmap string (list Q)) (calls : list (string * Q))
  : gmap string (list Q) * list bool :=
  match calls with
  | [] => (requests, [])
  | (ip, now) :: rest =>
      let (requests', ok) := allow_request requests now ip in
      let (final, oks) := run_calls requests' rest in
      (final, ok :: oks)
  end.

(** the times of the calls of [ip] that were answered [True] *)
Fixpoint granted (ip : string) (calls : list (string * Q)) (oks : list bool) : list Q :=
  match calls, oks with
  | (ip', now) :: calls', ok :: oks' =>
      if ok && String.eqb ip ip' then now :: granted ip calls' oks'
      else granted ip calls' oks'
  | _, _ => []
  end.



(** [t] lies in the window of length [TIME_WINDOW] that starts at [s] *)
Definition in_window (s t : Q) : bool :=
  Qle_bool s t && Qltb t (s + TIME_WINDOW).

Definition count_in_window (s : Q) (times : list Q) : nat :=
  length (List.filter (in_window s) times).



(** six calls within half a second, five of them by one client *)
Definition burst : list (string * Q) :=
  [("203.0.113.7", 0%Q); ("203.0.113.7", 1#10); ("198.51.100.2", 1#5);
   ("203.0.113.7", 1#5); ("203.0.113.7", 3#10); ("203.0.113.7", 2#5)]%Q.

(** the same client, with a clock reading of [1/2] that is served after a
    call that read [2] *)
Definition out_of_order : list (string * Q) :=
  [("203.0.113.7", 0%Q); ("203.0.113.7", 0%Q); ("203.0.113.7", 0%Q);
   ("203.0.113.7", 0%Q); ("203.0.113.7", 0%Q); ("203.0.113.7", 2%Q);
   ("203.0.113.7", 1#2)]%Q.

(** *** Requests *)




(** a request with this request line and some headers *)
Definition request (line : string) : string :=
  line +:+ Py.CRLF +:+ "Host: example.org" +:+ Py.CRLF +:+ Py.CRLF.

(** *** Threads *)

(** the thread holds [COUNTS_LOCK] *)
Definition holds_lock (t : Threads.thread) : bool :=
  match Threads.at_pc t with
  | Threads.AtGet | Threads.AtSleep _ | Threads.AtStore _ | Threads.AtRelease => true
  | _ => false
  end.

(** the thread has run its store on [key] *)
Definition has_stored (key : string) (t : Threads.thread) : bool :=
  match Threads.at_pc t with
  | Threads.AtRelease | Threads.Returned => String.eqb key (Threads.path_key t)
  | _ => false
  end.

(** the value the thread read is still the value of [COUNTS] at its key *)
Definition read_is_current (counts : gmap string nat) (t : Threads.thread) : Prop :=
  match Threads.at_pc t with
  | Threads.AtSleep current | Threads.AtStore current =>
      current = counts_get counts (Threads.path_key t)
  | _ => True
  end.

(** the steps the thread has left *)
Definition steps_left (t : Threads.thread) : nat :=
  match Threads.at_pc t with
  | Threads.AtWith => 5
  | Threads.AtGet => 4
  | Threads.AtSleep _ => 3
  | Threads.AtStore _ => 2
  | Threads.AtRelease => 1
  | Threads.Returned => 0
  end.

Definition steps_left_all (pool : list Threads.thread) : nat :=
  list_sum (map steps_left pool).

(** what every schedule keeps true of the threads started on [keys] over
    [counts0] *)
Record lock_invariant (counts0 : gmap string nat) (keys : list string)
  (c : Threads.config) : Prop := {
  inv_keys : map Threads.path_key (Threads.pool c) = keys;
  inv_one_holder :
    length (List.filter holds_lock (Threads.pool c)) = if Threads.locked c then 1 else 0;
  inv_read : Forall (read_is_current (Threads.counts c)) (Threads.pool c);
  inv_counts : forall k,
    counts_get (Threads.counts c) k
    = counts_get counts0 k + length (List.filter (has_stored k) (Threads.pool c))
}.

(** ** Further vocabulary: the code around the claims *)

(** what [client_requests] keeps for [ip] *)
Definition kept_for (requests : gmap string (list Q)) (ip : string) : list Q :=
  default [] (requests !! ip).

(** the calls of one client *)
Definition calls_of (ip : string) (calls : list (string * Q)) : list (string * Q) :=
  List.filter (fun c => String.eqb ip (fst c)) calls.

(** the answers to the calls of one client, in order *)
Fixpoint answers_to (ip : string) (calls : list (string * Q)) (oks : list bool) : list bool :=
  match calls, oks with
  | (ip', _) :: calls', ok :: oks' =>
      if String.eqb ip ip' then ok :: answers_to ip calls' oks'
      else answers_to ip calls' oks'
  | _, _ => []
  end.









(** the header lines of a response, as [respond] writes them *)
Definition header_lines (hs : list (string * string)) : string :=
  String.concat EmptyString (map (fun kv => fst kv +:+ ": " +:+ snd kv +:+ Py.CRLF) hs).

(** *** [main], up to the accept loop *)

Inductive startup :=
| Exit (code : nat) (message : string)     (* print(message); sys.exit(code) *)
| Serve (content_dir : string).            (* the socket is bound and the loop runs *)

(** [abspath] is [os.path.abspath], which depends on the working
    directory; [argv] is [sys.argv] *)
Definition main (abspath : string -> string) (fs : FileSystem) (argv : list string)
  : startup :=
  match argv with
  | [_; directory] =>
      let content_dir := abspath directory in
      if negb (isdir fs content_dir)
      then Exit 1 ("Error: Directory '" +:+ content_dir +:+ "' does not exist.")
      else
        let public_dir := posixpath.join content_dir "public" in
        if negb (isdir fs public_dir) && negb (isdir fs content_dir)
        then Exit 1 ("Error: Directory '" +:+ content_dir +:+ "' does not exist.")
        else Serve content_dir
  | _ => Exit 1 "Usage: python server_mt.py <directory>"
  end.

(** a content directory without a [public] directory in it *)
Definition bare_fs : FileSystem :=
  Tree.fs "/" [("/srv", Tree.Dir); ("/srv/bare", Tree.Dir);
               ("/srv/bare/index.html", Tree.File "<h1>Home</h1>" true)].


(** ** Strings and paths *)


Lemma app_nil_l (s : string) : EmptyString +:+ s = s.
Proof. reflexivity. Qed.
Lemma app_cons (a : ascii) (s t : string) : String a s +:+ t = String a (s +:+ t).
Proof. reflexivity. Qed.

Lemma split_no_sep sep s : has_char sep s = false -> Py.split sep s = [s].
Proof.
  induction s as [|a r IH]; simpl; [reflexivity|].
  intros H. apply orb_false_iff in H as [Ha Hr]. rewrite Ha, (IH Hr). reflexivity.
Qed.

Lemma split_app_sep sep x r :
  has_char sep x = false ->
  Py.split sep (x +:+ String sep r) = x :: Py.split sep r.
Proof.
  induction x as [|a x IH]; intros H.
  - rewrite app_nil_l. simpl. rewrite Ascii.eqb_refl. reflexivity.
  - simpl in H. apply orb_false_iff in H as [Ha Hx].
    rewrite app_cons. simpl. rewrite Ha, (IH Hx). reflexivity.
Qed.

Lemma split_components_sep_free sep s c :
  In c (Py.split sep s) -> has_char sep c = false.
Proof.
  revert c. induction s as [|a r IH]; simpl; intros c.
  - intros [<-|[]]. reflexivity.
  - destruct (Ascii.eqb a sep) eqn:Ha.
    + intros [<-|H]; [reflexivity | auto].
    + destruct (Py.split sep r) as [|h t] eqn:Hs.
      * intros [<-|[]]. simpl. rewrite Ha. reflexivity.
      * intros [<-|H].
        -- simpl. rewrite Ha. apply IH. left. reflexivity.
        -- apply IH. right. exact H.
Qed.

Lemma join_cons2 sep x y l :
  Py.join sep (x :: y :: l) = x +:+ sep +:+ Py.join sep (y :: l).
Proof. reflexivity. Qed.

Lemma split_join (l : list string) :
  l <> [] ->
  Forall (fun c => has_char "/" c = false) l ->
  Py.split "/" (Py.join "/" l) = l.
Proof.
  induction l as [|x l IH]; [congruence|]. intros _ Hl.
  inversion Hl as [|? ? Hx Hl']; subst.
  destruct l as [|y l].
  - simpl. apply split_no_sep, Hx.
  - rewrite join_cons2. change ("/" +:+ Py.join "/" (y :: l)) with (String "/" (Py.join "/" (y :: l))).
    rewrite split_app_sep by exact Hx. f_equal. apply IH; [discriminate | exact Hl'].
Qed.

Lemma good_component_sep_free c : good_component c = true -> has_char "/" c = false.
Proof. unfold good_component. intros H. apply andb_true_iff in H as [_ H]. now apply negb_true_iff in H. Qed.

Lemma good_component_keep c : good_component c = true -> posixpath.keep_component c = true.
Proof. unfold good_component. intros H. now apply andb_true_iff in H as [H _]. Qed.

Lemma filter_all (A : Type) (f : A -> bool) (l : list A) :
  Forall (fun x => f x = true) l -> List.filter f l = l.
Proof. induction 1 as [|x l Hx _ IH]; simpl; [reflexivity|]. now rewrite Hx, IH. Qed.

Lemma components_join (l : list string) :
  Forall (fun c => good_component c = true) l ->
  posixpath.components (Py.join "/" l) = l.
Proof.
  intros Hl. unfold posixpath.components. destruct l as [|x l]; [reflexivity|].
  rewrite split_join.
  - apply filter_all. eapply List.Forall_impl; [|exact Hl]. apply good_component_keep.
  - discriminate.
  - eapply List.Forall_impl; [|exact Hl]. apply good_component_sep_free.
Qed.

Lemma components_slash_join (l : list string) :
  Forall (fun c => good_component c = true) l ->
  posixpath.components ("/" +:+ Py.join "/" l) = l.
Proof.
  intros Hl. change ("/" +:+ Py.join "/" l) with (String "/" (Py.join "/" l)).
  unfold posixpath.components. simpl. fold (posixpath.components (Py.join "/" l)).
  now apply components_join.
Qed.

Lemma components_good p :
  Forall (fun c => good_component c = true) (posixpath.components p).
Proof.
  apply List.Forall_forall. intros c Hc. unfold posixpath.components in Hc.
  apply List.filter_In in Hc as [Hin Hk]. unfold good_component.
  rewrite Hk. simpl. apply negb_true_iff. eapply split_components_sep_free, Hin.
Qed.
Lemma compare_refl s : String.compare s s = Eq.
Proof.
  induction s as [|a s IH]; simpl; [reflexivity|].
  unfold Ascii.compare. now rewrite N.compare_refl.
Qed.

Lemma list_lt_irrefl a : Py.list_lt a a = false.
Proof. induction a as [|x a IH]; simpl; [reflexivity|]. now rewrite compare_refl. Qed.

Lemma list_lt_asym a b : Py.list_lt a b = true -> Py.list_lt b a = false.
Proof.
  revert b. induction a as [|x a IH]; intros [|y b]; simpl; try congruence.
  rewrite (String.compare_antisym y x).
  destruct (String.compare x y); simpl; try congruence. apply IH.
Qed.

Lemma list_lt_total a b : Py.list_lt a b = false -> Py.list_lt b a = false -> a = b.
Proof.
  revert b. induction a as [|x a IH]; intros [|y b]; simpl; try congruence.
  rewrite (String.compare_antisym y x).
  destruct (String.compare x y) eqn:E; simpl; try congruence.
  apply String.compare_eq_iff in E. subst y. intros H1 H2. f_equal. now apply IH.
Qed.

(** [s2[i]] is never out of range when [s1] is not above [s2] *)
Lemma commonpath_loop_ordered s1 s2 :
  Py.list_lt s2 s1 = false ->
  posixpath.commonpath_loop s1 s2 = Some (common_prefix s1 s2).
Proof.
  revert s2. induction s1 as [|c r1 IH]; intros [|d r2]; simpl; try congruence.
  destruct (String.compare d c) eqn:E; try congruence.
  - apply String.compare_eq_iff in E. subst d. rewrite String.eqb_refl.
    intros H. now rewrite (IH _ H).
  - intros _. destruct (String.eqb_spec c d) as [->|_]; [|reflexivity].
    rewrite compare_refl in E. discriminate.
Qed.

Lemma common_prefix_comm a b : common_prefix a b = common_prefix b a.
Proof.
  revert b. induction a as [|x a IH]; intros [|y b]; simpl; try reflexivity.
  rewrite (String.eqb_sym y x). destruct (String.eqb_spec x y) as [->|_]; [|reflexivity].
  now rewrite IH.
Qed.

Lemma commonpath_loop_min_max a b :
  posixpath.commonpath_loop (Py.min2 a b) (Py.max2 a b) = Some (common_prefix b a).
Proof.
  unfold Py.min2, Py.max2.
  destruct (Py.list_lt b a) eqn:Hba.
  - rewrite (list_lt_asym _ _ Hba). apply commonpath_loop_ordered.
    now apply list_lt_asym.
  - destruct (Py.list_lt a b) eqn:Hab.
    + rewrite common_prefix_comm. now apply commonpath_loop_ordered.
    + rewrite (list_lt_total _ _ Hab Hba). apply commonpath_loop_ordered, list_lt_irrefl.
Qed.

Lemma common_prefix_l a b : common_prefix a b `prefix_of` a.
Proof.
  revert b. induction a as [|x a IH]; intros [|y b]; simpl; try apply prefix_nil.
  destruct (String.eqb x y); [|apply prefix_nil]. apply prefix_cons, IH.
Qed.

Lemma common_prefix_of_prefix a b : a `prefix_of` b -> common_prefix a b = a.
Proof.
  intros [k ->]. induction a as [|x a IH]; simpl; [reflexivity|].
  now rewrite String.eqb_refl, IH.
Qed.

Lemma common_prefix_good a b :
  Forall (fun c => good_component c = true) a ->
  Forall (fun c => good_component c = true) (common_prefix a b).
Proof.
  intros Ha. destruct (common_prefix_l a b) as [k Hk]. rewrite Hk in Ha.
  now apply Forall_app in Ha as [Ha _].
Qed.

(** [commonpath] of two paths never raises [IndexError], and what it
    returns is made of the common leading components *)
Lemma commonpath_spec p1 p2 :
  posixpath.commonpath p1 p2 = posixpath.ValueError
  \/ exists pre, (pre = "/" \/ pre = EmptyString) /\ (pre = "/" <-> Py.startswith p1 "/" = true) /\
       posixpath.commonpath p1 p2
       = posixpath.Common (pre +:+ Py.join "/"
           (common_prefix (posixpath.components p2) (posixpath.components p1))).
Proof.
  unfold posixpath.commonpath.
  destruct (negb _); [now left|]. right.
  rewrite commonpath_loop_min_max.
  destruct (Py.startswith p1 "/"); eexists; (split; [|split; [|reflexivity]]); intuition congruence.
Qed.


Lemma components_prefixed pre l :
  pre = "/" \/ pre = EmptyString ->
  Forall (fun c => good_component c = true) l ->
  posixpath.components (pre +:+ Py.join "/" l) = l.
Proof. intros [->| ->] Hl; [now apply components_slash_join | now apply components_join]. Qed.

(** the guard lets through only what is the parent or below it *)
Lemma is_subpath_sound fs child parent :
  _is_subpath fs child parent = Some true -> is_within fs child parent.
Proof.
  unfold _is_subpath, is_within.
  destruct (commonpath_spec (realpath fs child) (realpath fs parent)) as [->|(pre & Hpre & _ & ->)];
    [discriminate|].
  intros [= H]. apply String.eqb_eq in H.
  apply (f_equal posixpath.components) in H.
  rewrite components_prefixed in H
    by (try exact Hpre; apply common_prefix_good, components_good).
  rewrite <- H at 1. rewrite common_prefix_comm. apply common_prefix_l.
Qed.

Lemma canonical_startswith p : canonical p -> Py.startswith p "/" = true.
Proof. intros (l & _ & ->). reflexivity. Qed.

(** on canonical paths the guard lets through all of it *)
Lemma is_subpath_complete fs child parent :
  canonical (realpath fs child) -> canonical (realpath fs parent) ->
  is_within fs child parent -> _is_subpath fs child parent = Some true.
Proof.
  intros Hc Hp Hw. unfold _is_subpath, is_within in *.
  unfold posixpath.commonpath.
  rewrite (canonical_startswith _ Hc), (canonical_startswith _ Hp). simpl.
  rewrite commonpath_loop_min_max, (common_prefix_of_prefix _ _ Hw).
  destruct Hp as (l & Hl & Hp). rewrite Hp at 1. rewrite (components_slash_join _ Hl).
  rewrite <- Hp, String.eqb_refl. reflexivity.
Qed.


(** ** The sliding window *)

Lemma Qltb_lt x y : Qltb x y = true <-> (x < y)%Q.
Proof. unfold Qltb. rewrite Qlt_alt. destruct (x ?= y)%Q; intuition congruence. Qed.

Lemma Qltb_ge x y : Qltb x y = false <-> (y <= x)%Q.
Proof.
  rewrite <- Bool.not_true_iff_false, Qltb_lt. split; [apply Qnot_lt_le | apply Qle_not_lt].
Qed.




(** [allow_request], in one equation *)
Lemma allow_request_eq requests now ip :
  allow_request requests now ip =
  let kept := prune now (default [] (requests !! ip)) in
  if length kept <? REQUESTS_PER_SECOND
  then (<[ip := kept ++ [now]]> requests, true)
  else (<[ip := kept]> requests, false).
Proof.
  unfold allow_request.
  destruct (requests !! ip) as [l|] eqn:E; simpl.
  - rewrite E. simpl. rewrite lookup_insert_eq. simpl.
    destruct (_ <? _); [now rewrite insert_insert_eq | reflexivity].
  - rewrite !lookup_insert_eq. simpl. rewrite !insert_insert_eq. reflexivity.
Qed.

Lemma run_calls_cons requests ip now rest :
  run_calls requests ((ip, now) :: rest) =
  (fst (run_calls (fst (allow_request requests now ip)) rest),
   snd (allow_request requests now ip)
   :: snd (run_calls (fst (allow_request requests now ip)) rest)).
Proof.
  simpl. destruct (allow_request requests now ip) as [requests' ok]. simpl.
  destruct (run_calls requests' rest). reflexivity.
Qed.



Section one_client.

Variable ip : string.





End one_client.



Lemma filter_length_le (f : Q -> bool) (l : list Q) : length (List.filter f l) <= length l.
Proof. induction l as [|t l IH]; simpl; [lia|]. destruct (f t); simpl; lia. Qed.






(** The bound is about calls served in the order of their clock readings.
    [allow_request] reads [time.time()] before it takes [requests_lock]: a
    reading of [1/2] served after a call that read [2] and pruned every
    earlier grant is granted as the sixth of its window. *)
Remark out_of_order_calls_exceed_the_cap :
  snd (run_calls ∅ out_of_order) = [true; true; true; true; true; true; true]
  /\ count_in_window 0 (granted "203.0.113.7" out_of_order (snd (run_calls ∅ out_of_order))) = 6.
Proof. split; vm_compute; reflexivity. Qed.


(** ** The connection handler *)








(** after the allowlist the type of the file is always known: the
    [mime_type is None] branch of the handler is never taken *)
Lemma guess_type_allowed path :
  Py.mem (Py.lower (snd (posixpath.splitext path))) ALLOWED_EXTENSIONS = true ->
  exists mime_type, guess_type path = Some mime_type.
Proof.
  unfold guess_type. destruct (assoc (snd (posixpath.splitext path)) types_map); [eauto|].
  unfold Py.mem, ALLOWED_EXTENSIONS. cbn [existsb]. rewrite !orb_true_iff, !String.eqb_eq.
  intros [H|[H|[H|[H|H]]]]; try discriminate H; rewrite H; eexists; reflexivity.
Qed.


(** ** The file system without links is a canonical one *)

Lemma collapse_Forall (P : string -> Prop) comps : forall stack,
  Forall P comps -> Forall P stack -> Forall P (Tree.collapse comps stack).
Proof.
  induction comps as [|c r IH]; intros stack Hc Hs; simpl.
  - now apply List.Forall_rev.
  - inversion Hc as [|? ? Hc1 Hc2]; subst.
    destruct (String.eqb c "..").
    + apply IH; [exact Hc2|]. destruct stack; [constructor|]. now inversion Hs.
    + apply IH; [exact Hc2|]. now constructor.
Qed.



Lemma abspath_canonical cwd p : canonical (Tree.abspath cwd p).
Proof.
  unfold Tree.abspath. eexists. split; [|reflexivity].
  apply collapse_Forall; [apply components_good | constructor].
Qed.


Lemma tree_canonical_realpath cwd t : canonical_realpath (Tree.fs cwd t).
Proof. intros p. apply abspath_canonical. Qed.


(** ** The threads inside [_bump_count] *)

Lemma insert_middle (A : Type) (l1 l2 : list A) (x y : A) :
  <[length l1 := y]> (l1 ++ x :: l2) = l1 ++ y :: l2.
Proof. induction l1 as [|a l1 IH]; simpl; [reflexivity | now rewrite IH]. Qed.

Lemma lookup_split (A : Type) (l : list A) (i : nat) (x : A) :
  l !! i = Some x -> exists l1 l2, l = l1 ++ x :: l2 /\ i = length l1.
Proof.
  revert i. induction l as [|a l IH]; intros [|i] H; simpl in H; try discriminate.
  - injection H as ->. exists [], l. split; reflexivity.
  - destruct (IH _ H) as (l1 & l2 & -> & ->). exists (a :: l1), l2. split; reflexivity.
Qed.

(** a step of the scheduler changes one thread of the pool *)
Lemma step_inversion i c c' :
  Threads.step i c = Some c' ->
  exists l1 t l2 t',
    Threads.pool c = l1 ++ t :: l2
    /\ Threads.thread_step (Threads.counts c) (Threads.locked c) t
       = Some (Threads.counts c', Threads.locked c', t')
    /\ Threads.pool c' = l1 ++ t' :: l2.
Proof.
  unfold Threads.step. destruct (Threads.pool c !! i) as [t|] eqn:Hi; [|discriminate].
  destruct (Threads.thread_step _ _ t) as [[[counts' locked'] t']|] eqn:Hs; [|discriminate].
  intros [= <-]. destruct (lookup_split _ _ _ _ Hi) as (l1 & l2 & Hl & ->).
  exists l1, t, l2, t'. simpl. rewrite Hl, insert_middle. auto.
Qed.

Lemma filter_length_middle (A : Type) (f : A -> bool) (l1 l2 : list A) (x : A) :
  length (List.filter f (l1 ++ x :: l2))
  = length (List.filter f l1) + (if f x then 1 else 0) + length (List.filter f l2).
Proof.
  rewrite List.filter_app, length_app. simpl. destruct (f x); simpl; lia.
Qed.

Lemma filter_length_zero (A : Type) (f : A -> bool) (l : list A) :
  length (List.filter f l) = 0 -> Forall (fun x => f x = false) l.
Proof.
  induction l as [|x l IH]; simpl; [constructor|].
  destruct (f x) eqn:E; simpl; [discriminate|]. intros H. constructor; auto.
Qed.

(** a thread that does not hold the lock has read nothing yet *)
Lemma read_is_current_outside counts counts' t :
  holds_lock t = false -> read_is_current counts t -> read_is_current counts' t.
Proof. unfold holds_lock, read_is_current. destruct (Threads.at_pc t); auto; discriminate. Qed.

Lemma thread_step_key counts locked t counts' locked' t' :
  Threads.thread_step counts locked t = Some (counts', locked', t') ->
  Threads.path_key t' = Threads.path_key t.
Proof.
  unfold Threads.thread_step. destruct (Threads.at_pc t); try destruct locked;
    intros [= <- <- <-]; reflexivity.
Qed.

Lemma counts_get_insert counts k v k0 :
  counts_get (<[k := v]> counts) k0 = if String.eqb k0 k then v else counts_get counts k0.
Proof.
  unfold counts_get. destruct (String.eqb_spec k0 k) as [->|Hne].
  - now rewrite lookup_insert_eq.
  - rewrite lookup_insert_ne by congruence. reflexivity.
Qed.

Lemma steps_left_all_middle l1 t l2 :
  steps_left_all (l1 ++ t :: l2) = steps_left_all l1 + steps_left t + steps_left_all l2.
Proof.
  unfold steps_left_all. rewrite map_app, list_sum_app. simpl. lia.
Qed.

(** every step keeps the invariant, never lowers a count, and uses up one
    of the steps that are left *)
Lemma step_preserves counts0 keys i c c' :
  lock_invariant counts0 keys c ->
  Threads.step i c = Some c' ->
  lock_invariant counts0 keys c'
  /\ (forall k, counts_get (Threads.counts c) k <= counts_get (Threads.counts c') k)
  /\ S (steps_left_all (Threads.pool c')) = steps_left_all (Threads.pool c).
Proof.
  intros [Hkeys Hone Hread Hcounts] Hstep.
  destruct (step_inversion _ _ _ Hstep) as (l1 & t & l2 & t' & Hpool & Hts & Hpool').
  destruct c as [counts locked pool], c' as [counts' locked' pool']. simpl in *. subst pool pool'.
  rewrite filter_length_middle in Hone.
  apply Forall_app in Hread as [Hread1 Hread2].
  apply Forall_cons in Hread2 as [Hreadt Hread2].
  assert (holds_lock t = true ->
          Forall (fun x => holds_lock x = false) l1 /\ Forall (fun x => holds_lock x = false) l2
          /\ locked = true) as Halone.
  { intros Ht. rewrite Ht in Hone. destruct locked; [|lia].
    repeat split; apply filter_length_zero; lia. }
  assert (forall counts'', holds_lock t = true ->
          Forall (read_is_current counts'') l1 /\ Forall (read_is_current counts'') l2) as Hothers.
  { intros counts'' Ht. destruct (Halone Ht) as (H1 & H2 & _).
    rewrite List.Forall_forall in H1, H2, Hread1, Hread2.
    split; apply List.Forall_forall; intros x Hx;
      eapply read_is_current_outside; eauto. }
  clear Hstep.
  rewrite steps_left_all_middle, (steps_left_all_middle l1 t l2).
  destruct t as [k pc]. unfold Threads.thread_step in Hts. simpl in Hts.
  destruct pc; [destruct locked; [discriminate|] | | | | | discriminate];
    injection Hts as <- <- <-;
    cbn [steps_left holds_lock Threads.at_pc Threads.path_key] in *.
  - (* with COUNTS_LOCK *)
    split; [|split; [intros; lia | lia]].
    constructor; simpl.
    + rewrite <- Hkeys, !map_app. reflexivity.
    + rewrite filter_length_middle. cbn [holds_lock Threads.at_pc]. lia.
    + apply Forall_app. split; [exact Hread1|]. apply Forall_cons. split; [exact I | exact Hread2].
    + intros k0. rewrite Hcounts, !filter_length_middle. reflexivity.
  - (* current = COUNTS.get(path_key, 0) *)
    split; [|split; [intros; lia | lia]].
    constructor; simpl.
    + rewrite <- Hkeys, !map_app. reflexivity.
    + rewrite filter_length_middle. cbn [holds_lock Threads.at_pc]. lia.
    + apply Forall_app. split; [exact Hread1|]. apply Forall_cons. split; [reflexivity | exact Hread2].
    + intros k0. rewrite Hcounts, !filter_length_middle. reflexivity.
  - (* time.sleep *)
    split; [|split; [intros; lia | lia]].
    constructor; simpl.
    + rewrite <- Hkeys, !map_app. reflexivity.
    + rewrite filter_length_middle. cbn [holds_lock Threads.at_pc]. lia.
    + apply Forall_app. split; [exact Hread1|]. apply Forall_cons. split; [exact Hreadt | exact Hread2].
    + intros k0. rewrite Hcounts, !filter_length_middle. reflexivity.
  - (* COUNTS[path_key] = current + 1 *)
    unfold read_is_current in Hreadt. simpl in Hreadt. subst current.
    destruct (Hothers (<[k := counts_get counts k + 1]> counts) eq_refl) as [Ho1 Ho2].
    split; [|split; [|lia]].
    + constructor; simpl.
      * rewrite <- Hkeys, !map_app. reflexivity.
      * rewrite filter_length_middle. cbn [holds_lock Threads.at_pc]. lia.
      * apply Forall_app. split; [exact Ho1|]. apply Forall_cons. split; [exact I | exact Ho2].
      * intros k0. rewrite counts_get_insert. pose proof (Hcounts k0) as Hk0.
        pose proof (Hcounts k) as Hk. rewrite filter_length_middle in Hk0, Hk |- *.
        cbn [has_stored Threads.at_pc Threads.path_key] in Hk0, Hk |- *.
        destruct (String.eqb_spec k0 k) as [->|Hne]; lia.
    + intros k0. rewrite counts_get_insert. destruct (String.eqb_spec k0 k) as [->|Hne]; lia.
  - (* leaving the with block *)
    split; [|split; [intros; lia | lia]].
    destruct (Halone eq_refl) as (H1 & H2 & ->).
    constructor; simpl.
    + rewrite <- Hkeys, !map_app. reflexivity.
    + rewrite filter_length_middle. cbn [holds_lock Threads.at_pc]. lia.
    + apply Forall_app. split; [exact Hread1|]. apply Forall_cons. split; [exact I | exact Hread2].
    + intros k0. rewrite Hcounts, !filter_length_middle. reflexivity.
Qed.

Lemma start_invariant counts0 keys : lock_invariant counts0 keys (Threads.start counts0 keys).
Proof.
  constructor; simpl.
  - rewrite map_map. simpl. apply map_id.
  - induction keys as [|k keys IH]; simpl; [reflexivity | exact IH].
  - apply List.Forall_forall. intros t Ht. apply in_map_iff in Ht as (k & <- & _). exact I.
  - intros k. replace (length _) with 0; [lia|].
    induction keys as [|k' keys IH]; simpl; [reflexivity | exact IH].
Qed.

Lemma start_steps_left counts0 keys :
  steps_left_all (Threads.pool (Threads.start counts0 keys)) = 5 * length keys.
Proof.
  unfold steps_left_all. simpl. induction keys as [|k keys IH]; simpl; [reflexivity|].
  rewrite IH. lia.
Qed.

(** a run keeps the invariant, never lowers a count, and uses up one step
    per move *)
Lemma run_preserves counts0 keys schedule : forall c c',
  lock_invariant counts0 keys c ->
  Threads.run schedule c = Some c' ->
  lock_invariant counts0 keys c'
  /\ (forall k, counts_get (Threads.counts c) k <= counts_get (Threads.counts c') k)
  /\ length schedule + steps_left_all (Threads.pool c') = steps_left_all (Threads.pool c).
Proof.
  induction schedule as [|i rest IH]; intros c c' Hinv Hrun; simpl in Hrun.
  - injection Hrun as <-. auto.
  - destruct (Threads.step i c) as [c1|] eqn:Hstep; [|discriminate].
    destruct (step_preserves _ _ _ _ _ Hinv Hstep) as (Hinv1 & Hmono1 & Hleft1).
    destruct (IH _ _ Hinv1 Hrun) as (Hinv' & Hmono' & Hleft').
    split; [exact Hinv'|]. split.
    + intros k. specialize (Hmono1 k). specialize (Hmono' k). lia.
    + simpl. lia.
Qed.

Lemma all_returned_steps_left pool :
  forallb Threads.has_returned pool = true <-> steps_left_all pool = 0.
Proof.
  unfold steps_left_all. induction pool as [|t pool IH]; simpl; [tauto|].
  rewrite andb_true_iff, IH. unfold Threads.has_returned, steps_left.
  destruct (Threads.at_pc t); split; intros H; try lia; try (destruct H; discriminate).
Qed.

(** once every thread has returned, the stores on [k] are the requests
    for [k] *)
Lemma all_returned_stored k pool :
  forallb Threads.has_returned pool = true ->
  length (List.filter (has_stored k) pool)
  = Threads.requests_for k (map Threads.path_key pool).
Proof.
  unfold Threads.requests_for. induction pool as [|t pool IH]; simpl; [reflexivity|].
  intros H. apply andb_true_iff in H as [Ht Hpool]. specialize (IH Hpool).
  unfold Threads.has_returned in Ht. unfold has_stored at 1.
  destruct (Threads.at_pc t); try discriminate.
  destruct (String.eqb k (Threads.path_key t)); simpl; lia.
Qed.

(** a thread that has not returned and is not blocked can move *)
Lemma thread_step_enabled counts locked t :
  (holds_lock t = true \/ (locked = false /\ Threads.has_returned t = false)) ->
  exists r, Threads.thread_step counts locked t = Some r.
Proof.
  unfold holds_lock, Threads.has_returned, Threads.thread_step.
  destruct (Threads.at_pc t); intros [H|[-> H]]; try discriminate; eauto.
Qed.

Lemma exists_in_pool (f : Threads.thread -> bool) pool :
  0 < length (List.filter f pool) -> exists i t, pool !! i = Some t /\ f t = true.
Proof.
  induction pool as [|t pool IH]; simpl; [lia|].
  destruct (f t) eqn:E.
  - intros _. exists 0, t. auto.
  - intros H. destruct (IH H) as (i & t' & Hi & Ht'). exists (S i), t'. auto.
Qed.

Lemma not_all_returned pool :
  forallb Threads.has_returned pool = false ->
  exists i t, pool !! i = Some t /\ Threads.has_returned t = false.
Proof.
  induction pool as [|t pool IH]; simpl; [discriminate|].
  destruct (Threads.has_returned t) eqn:E; simpl.
  - intros H. destruct (IH H) as (i & t' & Hi & Ht'). exists (S i), t'. auto.
  - intros _. exists 0, t. auto.
Qed.

(** no deadlock: while a thread has not returned, some thread can move *)
Lemma progress counts0 keys c :
  lock_invariant counts0 keys c ->
  Threads.all_returned c = false ->
  exists i c', Threads.step i c = Some c'.
Proof.
  intros [_ Hone _ _] Hnot. unfold Threads.all_returned in Hnot.
  assert (exists i t, Threads.pool c !! i = Some t
                      /\ (holds_lock t = true
                          \/ (Threads.locked c = false /\ Threads.has_returned t = false)))
    as (i & t & Hi & Ht).
  { destruct (Threads.locked c).
    - destruct (exists_in_pool holds_lock (Threads.pool c)) as (i & t & Hi & Ht); [lia|].
      exists i, t. auto.
    - destruct (not_all_returned _ Hnot) as (i & t & Hi & Ht). exists i, t. auto. }
  destruct (thread_step_enabled (Threads.counts c) (Threads.locked c) t Ht)
    as [[[counts' locked'] t'] Hstep].
  exists i. unfold Threads.step. rewrite Hi, Hstep. eauto.
Qed.

(** one thread alone does what [_bump_count] does *)
Lemma one_thread_is_bump_count counts0 key :
  Threads.run [0; 0; 0; 0; 0] (Threads.start counts0 [key])
  = Some {| Threads.counts := _bump_count counts0 key;
            Threads.locked := false;
            Threads.pool := [{| Threads.path_key := key; Threads.at_pc := Threads.Returned |}] |}.
Proof. reflexivity. Qed.

(** ** C1: the traversal guard *)



(** ** C2: the headers of every response *)

(** the responses that carry their length *)
Lemma serve_target_headers fs counts content_dir target r :
  serve_target fs counts content_dir target = Some r ->
  header "Connection" r = Some "close"
  /\ (header "Content-Length" r = Some (Py.str_of_nat (String.length (body r)))
      \/ r = respond_500).
Proof.
  unfold serve_target.
  destruct (_is_subpath _ _ _) as [[|]|]; [| intros [= <-]; split; [|left]; reflexivity | discriminate].
  repeat match goal with
         | |- context [if ?b then _ else _] => destruct b
         | |- context [match ?o with Some _ => _ | None => _ end] => destruct o
         end;
    intros [= <-]; split; try reflexivity; try (left; reflexivity); right; reflexivity.
Qed.

(** Every response closes the connection, and every response but the three
    built in place in [_serve_connection] (400, 405, 500) states its
    length. *)
Lemma every_response_headers fs g now data addr content_dir r :
  snd (_serve_connection fs g now data addr content_dir) = Some r ->
  header "Connection" r = Some "close"
  /\ (header "Content-Length" r = Some (Py.str_of_nat (String.length (body r)))
      \/ r = respond_400 \/ r = respond_405 \/ r = respond_500).
Proof.
  unfold _serve_connection.
  destruct (allow_request _ _ _) as [requests ok].
  destruct ok; cbn [negb]; [|intros [= <-]; split; [|left]; reflexivity].
  destruct (String.eqb data EmptyString); [discriminate|].
  destruct (Py.split_ws _) as [|method [|target [|version [|extra l]]]];
    try (intros [= <-]; split; [|right; left]; reflexivity).
  destruct (String.eqb method "GET"); cbn [negb snd].
  - intros H. apply serve_target_headers in H as [H1 [H2| ->]]; split; auto.
  - intros [= <-]. split; [|right; right; left]; reflexivity.
Qed.

(** C2.  The claim fails on the three responses that [_serve_connection]
    builds in place: the 400 of a malformed request line, the 405 of another
    method and the 500 of a failed read carry [Connection: close] and no
    [Content-Length]. *)
Theorem C2_error_responses_carry_no_content_length :
  let send line := snd (_serve_connection Tree.site_fs initial_globals 0%Q (request line)
                          Tree.client Tree.content_dir) in
  (send "GET /index.html" = Some respond_400
   /\ status_code respond_400 = "400"
   /\ header "Content-Length" respond_400 = None
   /\ header "Connection" respond_400 = Some "close")
  /\ (send "POST /index.html HTTP/1.1" = Some respond_405
      /\ status_code respond_405 = "405"
      /\ header "Content-Length" respond_405 = None
      /\ header "Connection" respond_405 = Some "close")
  /\ (send "GET /locked.pdf HTTP/1.1" = Some respond_500
      /\ status_code respond_500 = "500"
      /\ header "Content-Length" respond_500 = None
      /\ header "Connection" respond_500 = Some "close").
Proof. cbv zeta. repeat split; reflexivity. Qed.

(** ** C3: the sliding window of [allow_request] *)



(** ** C4: the hit counter *)




(** ** C5: directories *)



(** ** C6: malformed request lines and other methods *)



(** ** C7: the extension allowlist *)



(** ** C8: what the listing shows *)

Lemma insert_sorted_perm x l : Py.insert_sorted x l ≡ₚ x :: l.
Proof.
  induction l as [|y r IH]; simpl; [reflexivity|].
  destruct (String.leb x y); [reflexivity|].
  rewrite IH. apply Permutation_swap.
Qed.

(** [sorted] keeps every name, as many times as it occurs *)
Lemma sorted_perm l : Py.sorted l ≡ₚ l.
Proof.
  induction l as [|x l IH]; simpl; [reflexivity|].
  unfold Py.sorted in *. simpl. rewrite insert_sorted_perm. now rewrite IH.
Qed.






(** ** C9: no hit is lost *)

(** C9.  Threads that run [_bump_count] concurrently, in any order the
    scheduler picks: along the run no count ever goes down; when all the
    threads have returned, the count of every path has grown by exactly the
    number of threads that were started for it (N requests for one target
    add N); and a run is never stuck before that, nor longer than five steps
    per thread.  The read, the sleep and the store of a thread all happen
    while it holds [COUNTS_LOCK]. *)
Theorem C9_no_hit_is_lost counts0 keys before after c1 c2 :
  Threads.run before (Threads.start counts0 keys) = Some c1 ->
  Threads.run after c1 = Some c2 ->
  (forall k, counts_get counts0 k <= counts_get (Threads.counts c1) k)
  /\ (forall k, counts_get (Threads.counts c1) k <= counts_get (Threads.counts c2) k)
  /\ (Threads.all_returned c2 = true ->
      forall k, counts_get (Threads.counts c2) k
                = counts_get counts0 k + Threads.requests_for k keys)
  /\ (Threads.all_returned c2 = false -> exists i c3, Threads.step i c2 = Some c3)
  /\ length before + length after <= 5 * length keys
  /\ (Threads.all_returned c2 = true <-> length before + length after = 5 * length keys)
  /\ Forall (fun t => match Threads.at_pc t with
                      | Threads.AtSleep current | Threads.AtStore current =>
                          Threads.locked c2 = true
                          /\ current = counts_get (Threads.counts c2) (Threads.path_key t)
                      | _ => True
                      end) (Threads.pool c2).
Proof.
  intros Hrun1 Hrun2.
  destruct (run_preserves counts0 keys before _ _ (start_invariant counts0 keys) Hrun1)
    as (Hinv1 & Hmono1 & Hleft1).
  destruct (run_preserves counts0 keys after _ _ Hinv1 Hrun2) as (Hinv2 & Hmono2 & Hleft2).
  rewrite start_steps_left in Hleft1.
  split; [exact Hmono1|]. split; [exact Hmono2|]. split; [|split; [|split; [|split]]].
  - intros Hall k. destruct Hinv2 as [Hkeys _ _ Hcounts].
    rewrite Hcounts, (all_returned_stored k _ Hall), Hkeys. reflexivity.
  - apply (progress counts0 keys c2 Hinv2).
  - lia.
  - unfold Threads.all_returned. rewrite all_returned_steps_left. lia.
  - destruct Hinv2 as [_ Hone Hread _].
    rewrite List.Forall_forall in Hread. apply List.Forall_forall. intros t Ht.
    specialize (Hread t Ht). unfold read_is_current in Hread.
    assert (holds_lock t = true -> Threads.locked c2 = true) as Hheld.
    { intros Hh. destruct (Threads.locked c2); [reflexivity|].
      apply filter_length_zero in Hone. rewrite List.Forall_forall in Hone.
      rewrite (Hone t Ht) in Hh. discriminate. }
    unfold holds_lock in Hheld. destruct (Threads.at_pc t); auto.
Qed.

Lemma C9_no_hit_is_lost_witness :
  exists c,
    Threads.run Threads.interleaved
      (Threads.start {[ "/books/" := 7 ]} Threads.three_requests) = Some c
    /\ Threads.all_returned c = true
    /\ Threads.requests_for "/books/" Threads.three_requests = 2
    /\ counts_get (Threads.counts c) "/books/" = 7 + 2
    /\ counts_get (Threads.counts c) "/" = 0 + 1.
Proof.
  destruct (Threads.run Threads.interleaved
              (Threads.start {[ "/books/" := 7 ]} Threads.three_requests)) as [c|] eqn:Hrun;
    [|vm_compute in Hrun; discriminate Hrun].
  assert (Threads.all_returned c = true) as Hall.
  { vm_compute in Hrun. injection Hrun as <-. reflexivity. }
  exists c. split; [reflexivity|]. split; [exact Hall|]. split; [reflexivity|].
  destruct (C9_no_hit_is_lost {[ "/books/" := 7 ]} Threads.three_requests
              Threads.interleaved [] c c Hrun eq_refl) as (_ & _ & Hexact & _).
  split; [apply (Hexact Hall "/books/") | apply (Hexact Hall "/")].
Defined.

(** ** C10: the content root itself *)





(** ** The rate limiter: memory, isolation, waiting *)


Lemma allow_request_kept requests now ip :
  kept_for (fst (allow_request requests now ip)) ip
  = prune now (kept_for requests ip)
    ++ (if snd (allow_request requests now ip) then [now] else []).
Proof.
  unfold kept_for. rewrite allow_request_eq. cbv zeta.
  destruct (_ <? _); cbn [fst snd]; rewrite lookup_insert_eq; cbn [default];
    [reflexivity | now rewrite app_nil_r].
Qed.

Lemma allow_request_decision requests now ip :
  snd (allow_request requests now ip)
  = (length (prune now (kept_for requests ip)) <? REQUESTS_PER_SECOND).
Proof.
  unfold kept_for. rewrite allow_request_eq. cbv zeta. destruct (_ <? _); reflexivity.
Qed.

Lemma allow_request_elsewhere requests now ip ip' :
  ip' <> ip -> fst (allow_request requests now ip) !! ip' = requests !! ip'.
Proof.
  intros Hne. rewrite allow_request_eq. cbv zeta.
  destruct (_ <? _); cbn [fst]; now rewrite lookup_insert_ne by congruence.
Qed.

Lemma allow_request_length_bounded requests now ip :
  length (kept_for requests ip) <= REQUESTS_PER_SECOND ->
  length (kept_for (fst (allow_request requests now ip)) ip) <= REQUESTS_PER_SECOND.
Proof.
  intros Hlen. rewrite allow_request_kept, length_app, allow_request_decision.
  pose proof (filter_length_le (fun t => Qltb (now - t) TIME_WINDOW) (kept_for requests ip)) as Hle.
  fold (prune now (kept_for requests ip)) in Hle.
  destruct (_ <? _) eqn:Hlt; simpl; [apply Nat.ltb_lt in Hlt|]; lia.
Qed.

(** X1.  Whatever the clock readings and their order, no client ever has
    more than [REQUESTS_PER_SECOND] times kept in [client_requests]. *)
Theorem client_requests_entries_never_exceed_the_cap calls ip :
  length (kept_for (fst (run_calls ∅ calls)) ip) <= REQUESTS_PER_SECOND.
Proof.
  assert (forall requests,
             (forall ip, length (kept_for requests ip) <= REQUESTS_PER_SECOND) ->
             forall ip, length (kept_for (fst (run_calls requests calls)) ip)
                        <= REQUESTS_PER_SECOND) as Hgen.
  { induction calls as [|[ip' now] rest IH]; intros requests Hreq ip0; [apply Hreq|].
    rewrite run_calls_cons. cbn [fst]. apply IH. intros ip1.
    destruct (String.eqb_spec ip1 ip') as [->|Hne].
    - now apply allow_request_length_bounded.
    - unfold kept_for. rewrite allow_request_elsewhere by exact Hne. apply Hreq. }
  apply Hgen. intros ip0. unfold kept_for. rewrite lookup_empty. apply Nat.le_0_l.
Qed.


(** X2.  The rate limit of a client does not depend on the other clients:
    in any sequence of calls, the answers to the calls of one client, and
    what is kept for it in the end, are those of the same calls made
    alone. *)
Theorem rate_limit_of_a_client_ignores_the_others calls ip :
  answers_to ip calls (snd (run_calls ∅ calls)) = snd (run_calls ∅ (calls_of ip calls))
  /\ kept_for (fst (run_calls ∅ calls)) ip
     = kept_for (fst (run_calls ∅ (calls_of ip calls))) ip.
Proof.
  assert (forall requests1 requests2,
             kept_for requests1 ip = kept_for requests2 ip ->
             answers_to ip calls (snd (run_calls requests1 calls))
             = snd (run_calls requests2 (calls_of ip calls))
             /\ kept_for (fst (run_calls requests1 calls)) ip
                = kept_for (fst (run_calls requests2 (calls_of ip calls))) ip) as Hgen.
  { induction calls as [|[ip' now] rest IH]; intros requests1 requests2 Hsame.
      - simpl. auto.
      - unfold calls_of. cbn [List.filter fst]. fold (calls_of ip rest).
        rewrite run_calls_cons. cbn [fst snd answers_to].
        destruct (String.eqb_spec ip ip') as [<-|Hne].
        + rewrite run_calls_cons. cbn [fst snd].
          assert (snd (allow_request requests1 now ip) = snd (allow_request requests2 now ip)) as Hok
            by (rewrite !allow_request_decision, Hsame; reflexivity).
          assert (kept_for (fst (allow_request requests1 now ip)) ip
                  = kept_for (fst (allow_request requests2 now ip)) ip) as Hkept
            by (rewrite !allow_request_kept, Hsame, Hok; reflexivity).
          destruct (IH _ _ Hkept) as (H1 & H2).
          rewrite Hok, H1. auto.
        + apply IH. unfold kept_for. rewrite allow_request_elsewhere by exact Hne. exact Hsame. }
  now apply Hgen.
Qed.

(** X3.  [Retry-After: 1] is enough.  When none of the times kept for a
    client lies after [now], a call of that client at [now], granted or
    not, is followed by a granted call [TIME_WINDOW] later, whatever the
    other clients did in between. *)
Theorem waiting_one_window_is_enough requests now ip others :
  Forall (fun t => (t <= now)%Q) (kept_for requests ip) ->
  Forall (fun c => fst c <> ip) others ->
  let after := fst (run_calls (fst (allow_request requests now ip)) others) in
  allow_request after (now + TIME_WINDOW) ip
  = (<[ip := [(now + TIME_WINDOW)%Q]]> after, true).
Proof.
  intros Hpast Hothers after.
  assert (kept_for after ip = kept_for (fst (allow_request requests now ip)) ip) as Hsame.
  { subst after. generalize (fst (allow_request requests now ip)). clear Hpast.
    induction others as [|[ip' n] rest IH]; intros r; [reflexivity|].
    inversion Hothers as [|? ? Hne Hrest]; subst. cbn [fst] in Hne.
    rewrite run_calls_cons. cbn [fst]. rewrite (IH Hrest).
    unfold kept_for. now rewrite allow_request_elsewhere by congruence. }
  assert (prune (now + TIME_WINDOW) (kept_for after ip) = []) as Hnone.
  { rewrite Hsame, allow_request_kept.
    assert (Forall (fun t => (t <= now)%Q)
              (prune now (kept_for requests ip)
               ++ (if snd (allow_request requests now ip) then [now] else []))) as Hall.
    { apply Forall_app. split.
      - rewrite List.Forall_forall in Hpast. apply List.Forall_forall. intros t Ht.
        apply List.filter_In in Ht as [Ht _]. now apply Hpast.
      - destruct (snd _); repeat constructor. apply Qle_refl. }
    induction Hall as [|t l Ht _ IH]; [reflexivity|].
    unfold prune in *. cbn [List.filter].
    replace (Qltb (now + TIME_WINDOW - t) TIME_WINDOW) with false; [exact IH|].
    symmetry. apply Qltb_ge. unfold TIME_WINDOW. lra. }
  rewrite allow_request_eq. cbv zeta. fold (kept_for after ip). rewrite Hnone. reflexivity.
Qed.

Lemma waiting_one_window_is_enough_witness :
  snd (allow_request (fst (run_calls ∅ burst)) (1 # 2)%Q "203.0.113.7") = false
  /\ snd (allow_request
            (fst (run_calls (fst (allow_request (fst (run_calls ∅ burst)) (1 # 2)%Q "203.0.113.7"))
                    [("198.51.100.2", (3 # 4)%Q)]))
            ((1 # 2) + TIME_WINDOW)%Q "203.0.113.7") = true.
Proof.
  split; [reflexivity|].
  rewrite (waiting_one_window_is_enough (fst (run_calls ∅ burst)) (1 # 2)%Q "203.0.113.7"
             [("198.51.100.2", (3 # 4)%Q)]).
  - reflexivity.
  - vm_compute. repeat constructor; intros H; discriminate H.
  - repeat constructor. cbn [fst]. discriminate.
Defined.

(** ** The handler: every exit *)










(** ** The listing: links, hits and order *)






Lemma app_assoc_s (a b c : string) : (a +:+ b) +:+ c = a +:+ (b +:+ c).
Proof. induction a as [|x a IH]; [reflexivity|]. now rewrite !app_cons, IH. Qed.

Lemma app_nil_r_s (a : string) : a +:+ EmptyString = a.
Proof. induction a as [|x a IH]; [reflexivity|]. now rewrite app_cons, IH. Qed.







Lemma length_app_s (a b : string) :
  String.length (a +:+ b) = String.length a + String.length b.
Proof. induction a as [|x a IH]; [reflexivity|]. rewrite app_cons. simpl. now rewrite IH. Qed.

Lemma rev_onto_app s acc : Py.rev_onto s acc = Py.rev s +:+ acc.
Proof.
  unfold Py.rev. revert acc. induction s as [|c s IH]; intros acc; [reflexivity|].
  simpl. rewrite (IH (String c acc)), (IH (String c EmptyString)), app_assoc_s. reflexivity.
Qed.

Lemma rev_cons c s : Py.rev (String c s) = Py.rev s +:+ String c EmptyString.
Proof. unfold Py.rev at 1. simpl. apply rev_onto_app. Qed.

Lemma rev_app a b : Py.rev (a +:+ b) = Py.rev b +:+ Py.rev a.
Proof.
  induction a as [|c a IH].
  - rewrite app_nil_l. change (Py.rev EmptyString) with EmptyString. now rewrite app_nil_r_s.
  - rewrite app_cons, !rev_cons, IH, app_assoc_s. reflexivity.
Qed.

Lemma rev_involutive s : Py.rev (Py.rev s) = s.
Proof.
  induction s as [|c s IH]; [reflexivity|].
  rewrite rev_cons, rev_app, IH. reflexivity.
Qed.

Lemma has_char_app c a b : has_char c (a +:+ b) = has_char c a || has_char c b.
Proof.
  induction a as [|x a IH]; [reflexivity|]. rewrite app_cons. simpl.
  now rewrite IH, orb_assoc.
Qed.

Lemma has_char_rev c s : has_char c (Py.rev s) = has_char c s.
Proof.
  induction s as [|x s IH]; [reflexivity|].
  rewrite rev_cons, has_char_app, IH. simpl. rewrite orb_false_r. apply orb_comm.
Qed.

Lemma lstrip_stops c s t :
  s <> EmptyString -> has_char c s = false -> Py.lstrip c (s +:+ t) = s +:+ t.
Proof.
  destruct s as [|a s]; [congruence|]. intros _ H. simpl in H.
  apply orb_false_iff in H as [Ha _]. rewrite app_cons. simpl. now rewrite Ha.
Qed.

(** [rstrip] removes the one slash that closes a name *)
Lemma rstrip_closing_slash s name :
  name <> EmptyString -> has_char "/" name = false ->
  Py.rstrip "/" ((s +:+ name) +:+ "/") = s +:+ name.
Proof.
  intros Hne Hfree. unfold Py.rstrip.
  rewrite rev_app. change (Py.rev "/") with (String "/" EmptyString).
  rewrite app_cons, app_nil_l. cbn [Py.lstrip Ascii.eqb Bool.eqb]. cbv iota.
  rewrite rev_app, lstrip_stops.
  - rewrite <- rev_app. apply rev_involutive.
  - intros H. apply (f_equal Py.rev) in H. rewrite rev_involutive in H. now subst.
  - now rewrite has_char_rev.
Qed.

Lemma split_app sep a b :
  Py.split sep (a +:+ String sep b) = Py.split sep a ++ Py.split sep b.
Proof.
  induction a as [|c a IH].
  - rewrite app_nil_l. simpl. now rewrite Ascii.eqb_refl.
  - rewrite app_cons. simpl. rewrite IH.
    destruct (Ascii.eqb c sep); [reflexivity|].
    destruct (Py.split sep a) as [|h t] eqn:E; [|reflexivity].
    destruct a as [|x a]; simpl in E; [discriminate|].
    destruct (Ascii.eqb x sep); [discriminate|]. destruct (Py.split sep a); discriminate.
Qed.

Lemma split_nonempty sep s : Py.split sep s <> [].
Proof.
  destruct s as [|x s]; simpl; [discriminate|].
  destruct (Ascii.eqb x sep); [discriminate|]. destruct (Py.split sep s); discriminate.
Qed.

Lemma join_cons_cons sep x y l :
  Py.join sep (x :: y :: l) = x +:+ sep +:+ Py.join sep (y :: l).
Proof. reflexivity. Qed.

Lemma join_cons_char c x l :
  Py.join "/" (String c x :: l) = String c (Py.join "/" (x :: l)).
Proof. destruct l as [|y l]; reflexivity. Qed.

(** joining what [split] gave is the string again *)
Lemma join_split s : Py.join "/" (Py.split "/" s) = s.
Proof.
  induction s as [|c s IH]; [reflexivity|]. simpl.
  destruct (Ascii.eqb_spec c "/") as [->|Hc].
  - destruct (Py.split "/" s) as [|h t] eqn:E; [now apply split_nonempty in E|].
    rewrite join_cons_cons, IH. reflexivity.
  - destruct (Py.split "/" s) as [|h t] eqn:E; [now apply split_nonempty in E|].
    rewrite join_cons_char, IH. reflexivity.
Qed.

Lemma rsplit1_head_last q name :
  has_char "/" name = false ->
  Py.rsplit1_head "/" (q +:+ String "/" name) = q.
Proof.
  intros Hfree. unfold Py.rsplit1_head.
  rewrite split_app, (split_no_sep _ _ Hfree), List.rev_app_distr. cbn [List.rev List.app].
  destruct (List.rev (Py.split "/" q)) as [|h t] eqn:E.
  - apply (f_equal (@List.rev string)) in E. rewrite List.rev_involutive in E.
    now apply split_nonempty in E.
  - rewrite <- E, List.rev_involutive. apply join_split.
Qed.

(** X8.  In the listing of a sub-directory the parent link leads back to
    the listing it was reached from: for the request path [req_path/name/]
    of a directory row, with [req_path] ending in [/], the link is the
    percent-encoded [req_path].  Only the request path [/] has no parent
    link. *)
Theorem parent_link_leads_back_to_the_listing q name :
  name <> EmptyString -> has_char "/" name = false ->
  let req_path := q +:+ "/" in
  parent_link (req_path +:+ (name +:+ "/"))
  = ["<a href=" +:+ Py.DQUOTE +:+ urllib.quote req_path +:+ Py.DQUOTE +:+ ">"
     +:+ UP_ARROW +:+ " Parent directory</a>"]
  /\ (forall p, parent_link p = [] <-> p = "/").
Proof.
  intros Hne Hfree req_path. split.
  - unfold parent_link.
    assert (String.eqb (req_path +:+ (name +:+ "/")) "/" = false) as Hroot.
    { apply String.eqb_neq. intros H. apply (f_equal String.length) in H.
      subst req_path. rewrite !length_app_s in H. destruct name; [congruence|]. simpl in H. lia. }
    rewrite Hroot. subst req_path.
    rewrite <- (app_assoc_s (q +:+ "/") name "/"), rstrip_closing_slash by assumption.
    change ((q +:+ "/") +:+ name) with ((q +:+ String "/" EmptyString) +:+ name).
    rewrite app_assoc_s. change (String "/" EmptyString +:+ name) with (String "/" name).
    rewrite rsplit1_head_last by exact Hfree.
    destruct (String.eqb_spec q EmptyString) as [->|_]; reflexivity.
  - intros p. unfold parent_link. destruct (String.eqb_spec p "/"); split; intros H;
      try reflexivity; try assumption; try contradiction; discriminate H.
Qed.

Lemma parent_link_leads_back_to_the_listing_witness :
  parent_link "/books/first drafts/"
  = ["<a href=" +:+ Py.DQUOTE +:+ "/books/" +:+ Py.DQUOTE +:+ ">"
     +:+ UP_ARROW +:+ " Parent directory</a>"].
Proof.
  apply (parent_link_leads_back_to_the_listing "/books" "first drafts").
  - discriminate.
  - reflexivity.
Defined.

Lemma leb_trans a : forall b c,
  String.leb a b = true -> String.leb b c = true -> String.leb a c = true.
Proof.
  unfold String.leb.
  induction a as [|x a IH]; intros [|y b] [|z c]; simpl; try congruence.
  unfold Ascii.compare.
  destruct (N.compare_spec (N_of_ascii x) (N_of_ascii y)) as [Hxy|Hxy|Hxy];
    destruct (N.compare_spec (N_of_ascii y) (N_of_ascii z)) as [Hyz|Hyz|Hyz];
    destruct (N.compare_spec (N_of_ascii x) (N_of_ascii z)) as [Hxz|Hxz|Hxz];
    try congruence; try lia.
  apply IH.
Qed.

Lemma leb_total_false a b : String.leb a b = false -> String.leb b a = true.
Proof. intros H. destruct (String.leb_total a b) as [H'|H']; congruence. Qed.

Lemma insert_sorted_sorted x l :
  StronglySorted (fun a b => String.leb a b = true) l ->
  StronglySorted (fun a b => String.leb a b = true) (Py.insert_sorted x l).
Proof.
  induction 1 as [|y l Hl IH Hy]; simpl; [repeat constructor|].
  destruct (String.leb x y) eqn:E.
  - constructor; [now constructor|]. constructor; [exact E|].
    eapply List.Forall_impl; [|exact Hy]. intros z Hz. eapply leb_trans; eauto.
  - constructor; [exact IH|].
    apply List.Forall_forall. intros z Hz.
    apply list_elem_of_In in Hz. rewrite insert_sorted_perm in Hz.
    apply list_elem_of_In in Hz. destruct Hz as [<-|Hz]; [now apply leb_total_false|].
    rewrite List.Forall_forall in Hy. now apply Hy.
Qed.

Lemma sorted_sorted l : StronglySorted (fun a b => String.leb a b = true) (Py.sorted l).
Proof.
  induction l as [|x l IH]; [constructor|]. unfold Py.sorted in *. simpl.
  now apply insert_sorted_sorted.
Qed.

Lemma filter_sorted (R : string -> string -> Prop) f l :
  StronglySorted R l -> StronglySorted R (List.filter f l).
Proof.
  induction 1 as [|y l Hl IH Hy]; simpl; [constructor|].
  destruct (f y); [|exact IH]. constructor; [exact IH|].
  apply List.Forall_forall. intros z Hz. apply List.filter_In in Hz as [Hz _].
  rewrite List.Forall_forall in Hy. now apply Hy.
Qed.

(** X9.  Whatever order [os.listdir] returns, the rows of a listing stand
    in ascending order of the names (byte by byte, a proper prefix first),
    on the main page as on every other, and a name that is listed once has
    at most one row. *)
Theorem listing_rows_are_in_ascending_order fs req_path abs_dir names :
  StronglySorted (fun a b => String.leb a b = true)
    (listing_entries fs req_path abs_dir names)
  /\ (List.NoDup names -> List.NoDup (listing_entries fs req_path abs_dir names)).
Proof.
  unfold listing_entries. split.
  - apply filter_sorted, sorted_sorted.
  - intros Hnd. apply List.NoDup_filter.
    eapply Permutation_NoDup; [|exact Hnd]. symmetry. apply sorted_perm.
Qed.

Lemma listing_rows_are_in_ascending_order_witness :
  listing_entries Tree.site_fs "/books/" "/srv/site/public/books"
    ["rocq.pdf"; "cover.png"; "drafts"]
  = ["cover.png"; "drafts"; "rocq.pdf"]
  /\ List.NoDup (listing_entries Tree.site_fs "/books/" "/srv/site/public/books"
                   ["rocq.pdf"; "cover.png"; "drafts"]).
Proof.
  split; [reflexivity|].
  apply (listing_rows_are_in_ascending_order Tree.site_fs "/books/" "/srv/site/public/books"
           ["rocq.pdf"; "cover.png"; "drafts"]).
  repeat constructor; simpl; intuition discriminate.
Defined.

(** ** The request line and the bytes of the response *)

Lemma split1_head_crlf a rest :
  has_char "013" a = false ->
  Py.split1_head Py.CRLF (a +:+ Py.CRLF +:+ rest) = a.
Proof.
  induction a as [|c a IH]; intros H.
  - reflexivity.
  - simpl in H. apply orb_false_iff in H as [Hc Ha].
    rewrite app_cons. cbn [Py.split1_head].
    replace (Py.startswith (String c (a +:+ Py.CRLF +:+ rest)) Py.CRLF) with false.
    + now rewrite IH.
    + symmetry. unfold Py.CRLF, Py.CR, Py.chr. rewrite app_cons.
      cbn [Py.startswith]. rewrite Ascii.eqb_sym.
      change (ascii_of_nat 13) with "013"%char. now rewrite Hc.
Qed.











Lemma join_crlf_lines line lines tail :
  Py.join Py.CRLF (line :: lines ++ [tail])
  = line +:+ Py.CRLF
    +:+ String.concat EmptyString (map (fun l => l +:+ Py.CRLF) lines) +:+ tail.
Proof.
  revert line. induction lines as [|l lines IH]; intros line.
  - reflexivity.
  - cbn [List.app map String.concat]. rewrite join_cons_cons, IH.
    destruct lines as [|l' lines]; cbn [map String.concat];
      rewrite ?app_nil_l, ?app_assoc_s; reflexivity.
Qed.

(** X11.  The bytes of a response are the status line, one line per
    header in their order, an empty line and the body, each line closed by
    CR LF and nothing after the body; the line splitting the handler
    applies to requests reads the status line back from them. *)
Theorem response_bytes r :
  respond r
  = "HTTP/1.1 " +:+ status r +:+ Py.CRLF +:+ header_lines (headers r) +:+ Py.CRLF +:+ body r
  /\ (has_char "013" (status r) = false ->
      Py.split1_head Py.CRLF (respond r) = "HTTP/1.1 " +:+ status r).
Proof.
  assert (respond r
          = "HTTP/1.1 " +:+ status r +:+ Py.CRLF +:+ header_lines (headers r)
            +:+ Py.CRLF +:+ body r) as Heq.
  { unfold respond, header_lines. cbv zeta.
    change [EmptyString; EmptyString] with ([EmptyString] ++ [EmptyString]).
    rewrite List.app_assoc, join_crlf_lines, map_app, map_map. cbn [map].
    set (f := fun kv : string * string => (fst kv +:+ ": " +:+ snd kv) +:+ Py.CRLF).
    set (g := fun kv : string * string => fst kv +:+ ": " +:+ snd kv +:+ Py.CRLF).
    assert (map f (headers r) = map g (headers r)) as ->.
    { apply map_ext. intros kv. subst f g. cbv beta. now rewrite !app_assoc_s. }
    assert (forall l, String.concat EmptyString (l ++ [EmptyString +:+ Py.CRLF])
                      = String.concat EmptyString l +:+ Py.CRLF) as Hc.
    { induction l as [|x l IHl]; [reflexivity|].
      destruct l as [|y l]; [reflexivity|].
      change ((x :: y :: l) ++ [EmptyString +:+ Py.CRLF])
        with (x :: (y :: l) ++ [EmptyString +:+ Py.CRLF]).
      cbn [String.concat List.app] in *. rewrite IHl, ?app_nil_l, ?app_assoc_s. reflexivity. }
    rewrite Hc, !app_assoc_s, app_nil_l. reflexivity. }
  split; [exact Heq|].
  intros Hcr. rewrite Heq.
  change ("HTTP/1.1 " +:+ status r +:+ Py.CRLF +:+ header_lines (headers r) +:+ Py.CRLF +:+ body r)
    with ("HTTP/1.1 " +:+ (status r +:+ Py.CRLF +:+ (header_lines (headers r) +:+ Py.CRLF +:+ body r))).
  rewrite <- app_assoc_s. apply split1_head_crlf.
  rewrite has_char_app, Hcr. reflexivity.
Qed.

Lemma response_bytes_witness :
  Py.split1_head Py.CRLF (respond _respond_404) = "HTTP/1.1 404 Not Found".
Proof.
  apply (response_bytes _respond_404). reflexivity.
Defined.

(** ** Start-up and path resolution *)

(** X12.  [main] goes on to serve exactly when it is given one argument
    and the absolute path of that argument is a directory; every other
    start ends with exit code 1.  The check of the [public] directory can
    never stop it: a content directory without [public] is served. *)
Theorem main_serves_any_existing_directory abspath fs argv :
  (forall content_dir,
      main abspath fs argv = Serve content_dir <->
      exists program directory,
        argv = [program; directory] /\ content_dir = abspath directory
        /\ isdir fs content_dir = true)
  /\ (forall code message, main abspath fs argv = Exit code message -> code = 1).
Proof.
  unfold main. split.
  - intros content_dir. split.
    + destruct argv as [|program [|directory [|extra l]]]; try discriminate.
      destruct (isdir fs (abspath directory)) eqn:Hdir; cbn [negb]; [|discriminate].
      rewrite andb_false_r. intros [= <-]. eauto.
    + intros (program & directory & -> & -> & Hdir). rewrite Hdir. cbn [negb].
      now rewrite andb_false_r.
  - intros code message.
    destruct argv as [|program [|directory [|extra l]]]; try (intros [= <- _]; reflexivity).
    destruct (isdir fs (abspath directory)); cbn [negb];
      rewrite ?andb_false_r; [discriminate | intros [= <- _]; reflexivity].
Qed.

Lemma main_serves_any_existing_directory_witness :
  isdir bare_fs "/srv/bare/public" = false
  /\ main (Tree.abspath "/") bare_fs ["server_mt.py"; "srv/bare"] = Serve "/srv/bare"
  /\ snd (_serve_connection bare_fs initial_globals 0%Q (request "GET / HTTP/1.1")
            Tree.client "/srv/bare") = Some _respond_404.
Proof.
  split; [reflexivity|]. split; [|reflexivity].
  apply (main_serves_any_existing_directory (Tree.abspath "/") bare_fs
           ["server_mt.py"; "srv/bare"]).
  exists "server_mt.py", "srv/bare". repeat split; reflexivity.
Defined.

Lemma lstrip_no_leading c s : Py.startswith (Py.lstrip c s) (String c EmptyString) = false.
Proof.
  induction s as [|a s IH]; [reflexivity|]. simpl.
  destruct (Ascii.eqb_spec a c) as [->|Hne]; [exact IH|].
  simpl. rewrite Ascii.eqb_sym. replace (Ascii.eqb a c) with false; [reflexivity|].
  symmetry. now apply Ascii.eqb_neq.
Qed.

Lemma endswith_public x : Py.endswith (x +:+ "public") "/" = false.
Proof. unfold Py.endswith. rewrite rev_app. reflexivity. Qed.

Lemma join_public content_dir :
  exists x, posixpath.join content_dir "public" = x +:+ "public"
            /\ (x = content_dir \/ x = content_dir +:+ "/").
Proof.
  unfold posixpath.join. cbn [Py.startswith Ascii.eqb Bool.eqb andb]. cbv iota.
  destruct (_ || _).
  - exists content_dir. auto.
  - exists (content_dir +:+ "/"). rewrite app_assoc_s. auto.
Qed.

(** X13.  The path handed to [os.path.realpath] is always the public root,
    a slash, and the target without its leading slashes: because the
    leading slashes are stripped, no target makes [os.path.join] drop the
    public root for an absolute path of its own. *)
Theorem resolved_path_starts_at_the_public_root fs content_dir target :
  let public_root := posixpath.join content_dir "public" in
  resolve fs content_dir target
  = realpath fs (public_root +:+ "/" +:+ Py.lstrip "/" target)
  /\ Py.startswith (Py.lstrip "/" target) "/" = false
  /\ Py.endswith public_root "public" = true.
Proof.
  cbv zeta. unfold resolve.
  destruct (join_public content_dir) as (x & Hx & _). rewrite Hx.
  split; [|split].
  - unfold posixpath.join at 1.
    rewrite lstrip_no_leading, endswith_public.
    replace (String.eqb (x +:+ "public") EmptyString) with false; [reflexivity|].
    symmetry. apply String.eqb_neq. intros H. apply (f_equal String.length) in H.
    rewrite length_app_s in H. simpl in H. lia.
  - apply lstrip_no_leading.
  - unfold Py.endswith. rewrite rev_app. reflexivity.
Qed.

Lemma prefix_of_antisym (A : Type) (l k : list A) :
  l `prefix_of` k -> k `prefix_of` l -> l = k.
Proof.
  intros [x Hx] [y Hy]. rewrite Hx in Hy.
  apply (f_equal (@length A)) in Hy. rewrite !length_app in Hy.
  destruct x; [now rewrite app_nil_r in Hx|]. simpl in Hy. lia.
Qed.

Lemma canonical_from_components p :
  canonical p -> p = "/" +:+ Py.join "/" (posixpath.components p).
Proof. intros (l & Hl & ->). now rewrite components_slash_join. Qed.

(** X14.  For a file system whose [realpath] returns canonical paths the
    guard is the containment order of the canonical paths: it is true
    exactly when the components of the parent are the first components of
    the child, it is transitive, and two paths that contain each other have
    the same canonical path. *)
Theorem is_subpath_is_the_containment_order fs :
  canonical_realpath fs ->
  (forall child parent,
      _is_subpath fs child parent = Some true <-> is_within fs child parent)
  /\ (forall a b c,
      _is_subpath fs a b = Some true -> _is_subpath fs b c = Some true ->
      _is_subpath fs a c = Some true)
  /\ (forall a b,
      _is_subpath fs a b = Some true -> _is_subpath fs b a = Some true ->
      realpath fs a = realpath fs b).
Proof.
  intros Hcan.
  assert (forall child parent,
             _is_subpath fs child parent = Some true <-> is_within fs child parent) as Hiff.
  { intros child parent. split; [apply is_subpath_sound|].
    apply is_subpath_complete; apply Hcan. }
  split; [exact Hiff|]. split.
  - intros a b c Hab Hbc. apply Hiff in Hab, Hbc. apply Hiff.
    unfold is_within in *. etransitivity; eassumption.
  - intros a b Hab Hba. apply Hiff in Hab, Hba. unfold is_within in *.
    rewrite (canonical_from_components _ (Hcan a)), (canonical_from_components _ (Hcan b)).
    f_equal. f_equal. now apply prefix_of_antisym.
Qed.

Lemma is_subpath_is_the_containment_order_witness :
  _is_subpath Tree.site_fs "/srv/site/public/books" "/srv/site/public" = Some true
  /\ _is_subpath Tree.site_fs "/srv/site/public/books" "/srv/site" = Some true
  /\ _is_subpath Tree.site_fs "/srv/sitemap" "/srv/site" = Some false.
Proof.
  destruct (is_subpath_is_the_containment_order Tree.site_fs (tree_canonical_realpath _ _))
    as (_ & Htrans & _).
  split; [reflexivity|]. split; [|reflexivity].
  apply (Htrans "/srv/site/public/books" "/srv/site/public" "/srv/site"); reflexivity.
Defined.

(** ** [file_size] *)














(** ** Lengths, locks and redirects *)

(** X16.  No response states a wrong length: whenever the handler sends a
    [Content-Length], its value is the decimal length of the body it sends,
    and every response says [Connection: close]. *)
Theorem content_length_is_the_length_of_the_body fs g now data addr content_dir r :
  snd (_serve_connection fs g now data addr content_dir) = Some r ->
  header "Connection" r = Some "close"
  /\ (forall v, header "Content-Length" r = Some v ->
                v = Py.str_of_nat (String.length (body r))).
Proof.
  intros H. destruct (every_response_headers _ _ _ _ _ _ _ H) as [Hclose Hlen].
  split; [exact Hclose|]. intros v Hv.
  destruct Hlen as [Hlen|[->|[->| ->]]]; [congruence | | |]; discriminate Hv.
Qed.

Lemma content_length_is_the_length_of_the_body_witness :
  snd (_serve_connection Tree.site_fs initial_globals 0%Q
         (request "GET /books HTTP/1.1") Tree.client Tree.content_dir)
  = Some (_respond_301 "/books/")
  /\ Py.str_of_nat (String.length (body (_respond_301 "/books/"))) = "62".
Proof.
  split; [reflexivity|]. symmetry.
  apply (content_length_is_the_length_of_the_body Tree.site_fs initial_globals 0%Q
           (request "GET /books HTTP/1.1") Tree.client Tree.content_dir
           (_respond_301 "/books/") eq_refl).
  reflexivity.
Defined.

(** X17.  [COUNTS_LOCK] is held by one thread at a time: in every
    configuration a schedule can reach, at most one thread is between
    taking and releasing the lock, so no two threads are ever in the
    [time.sleep] of [_bump_count] together, and the lock is marked held
    exactly when there is such a thread. *)
Theorem bump_count_sections_never_overlap counts0 keys schedule c :
  Threads.run schedule (Threads.start counts0 keys) = Some c ->
  length (List.filter holds_lock (Threads.pool c)) <= 1
  /\ (Threads.locked c = true <-> exists t, In t (Threads.pool c) /\ holds_lock t = true)
  /\ (forall i j t u current current',
        Threads.pool c !! i = Some t -> Threads.pool c !! j = Some u ->
        Threads.at_pc t = Threads.AtSleep current ->
        Threads.at_pc u = Threads.AtSleep current' -> i = j).
Proof.
  intros Hrun.
  destruct (run_preserves counts0 keys schedule _ _ (start_invariant counts0 keys) Hrun)
    as ([_ Hone _ _] & _ & _).
  split; [destruct (Threads.locked c); lia|]. split.
  - split.
    + intros Hl. rewrite Hl in Hone.
      destruct (exists_in_pool holds_lock (Threads.pool c)) as (i & t & Hi & Ht); [lia|].
      exists t. split; [|exact Ht]. apply list_elem_of_In. eapply list_elem_of_lookup_2, Hi.
    + intros (t & Hin & Ht). destruct (Threads.locked c); [reflexivity|].
      apply filter_length_zero in Hone. rewrite List.Forall_forall in Hone.
      rewrite (Hone t Hin) in Ht. discriminate.
  - intros i j t u current current' Hi Hj Ht Hu.
    assert (length (List.filter holds_lock (Threads.pool c)) <= 1) as Hle
      by (destruct (Threads.locked c); lia).
    clear Hone Hrun. revert i j Hi Hj Hle.
    generalize (Threads.pool c). intros pool.
    assert (holds_lock t = true) as Hht by (unfold holds_lock; now rewrite Ht).
    assert (holds_lock u = true) as Hhu by (unfold holds_lock; now rewrite Hu).
    induction pool as [|x pool IH]; intros i j Hi Hj Hle; [discriminate Hi|].
    simpl in Hle. destruct i as [|i], j as [|j]; simpl in Hi, Hj.
    + reflexivity.
    + injection Hi as ->. rewrite Hht in Hle. simpl in Hle.
      assert (length (List.filter holds_lock pool) = 0) as Hz by lia.
      apply filter_length_zero in Hz. rewrite List.Forall_forall in Hz.
      assert (In u pool) as Hin by (apply list_elem_of_In; eapply list_elem_of_lookup_2, Hj).
      rewrite (Hz u Hin) in Hhu. discriminate.
    + injection Hj as ->. rewrite Hhu in Hle. simpl in Hle.
      assert (length (List.filter holds_lock pool) = 0) as Hz by lia.
      apply filter_length_zero in Hz. rewrite List.Forall_forall in Hz.
      assert (In t pool) as Hin by (apply list_elem_of_In; eapply list_elem_of_lookup_2, Hi).
      rewrite (Hz t Hin) in Hht. discriminate.
    + f_equal. apply IH; [exact Hi | exact Hj |].
      destruct (holds_lock x); simpl in Hle; lia.
Qed.

Lemma bump_count_sections_never_overlap_witness :
  exists c,
    Threads.run [1; 1; 1] (Threads.start ∅ Threads.three_requests) = Some c
    /\ length (List.filter holds_lock (Threads.pool c)) <= 1
    /\ Threads.step 0 c = None.
Proof.
  destruct (Threads.run [1; 1; 1] (Threads.start ∅ Threads.three_requests)) as [c|] eqn:Hrun;
    [|vm_compute in Hrun; discriminate Hrun].
  exists c. split; [reflexivity|]. split.
  - apply (bump_count_sections_never_overlap ∅ Threads.three_requests [1; 1; 1] c Hrun).
  - vm_compute in Hrun. injection Hrun as <-. reflexivity.
Defined.





